(** * deteccion_caras_haar.py : largest-face selection and relative position

    A shallow embedding of the script [deteccion_caras_haar.py].  The script
    opens a camera, and for every frame it runs a Haar-cascade detector,
    picks the largest rectangle, derives a position triple from it, draws an
    overlay and shows the frame, until a read fails or the window is closed.

    The collaborators the script only calls (camera, detector, window
    backend) are kept as an environment of answers; everything the script
    itself computes is a Rocq function written after the source lines.

    Numbers.  The frame shape [(h, w)] holds Python integers, modelled as
    [Z]; [//] is floor division, which is [Z.div].  The rectangles come from
    [detectMultiScale] as rows of an [int32] array, so [x], [y], [fw], [fh]
    are NumPy [int32] scalars: sums, differences, products and floor
    divisions that involve them are [int32] again and wrap around at
    [2^31] (the typing of NumPy 2; older versions widen a mixed operation
    with a Python integer to [int64], which gives the same value whenever
    the [int32] result does not wrap).  The true division [/] of such a scalar yields a [float64]: the
    float nearest to the exact quotient, modelled by that quotient as a
    reduced rational, and for a zero divisor [inf], [-inf] or [nan] (with a
    warning, not an exception). *)

From Stdlib Require Import ZArith QArith Qreduction List Bool Lia String.
From Stdlib Require Import Permutation.
Import ListNotations.

Local Open Scope Z_scope.

(** ** Exceptions and the error monad *)

Inductive Exception : Type :=
| ValueError
| Cv2Error
| RuntimeError (msg : string).

Inductive result (A : Type) : Type :=
| Ok (a : A)
| Raise (e : Exception).

Arguments Ok {A} a.
Arguments Raise {A} e.

Definition bind {A B : Type} (m : result A) (k : A -> result B) : result B :=
  match m with
  | Ok a => k a
  | Raise e => Raise e
  end.

Notation "x <- m ;; k" := (bind m (fun x => k))
  (at level 61, m at next level, right associativity).

(** ** NumPy and Python numbers *)

(** The value of an [int32] computation whose exact result is [z]. *)
Definition wrap32 (z : Z) : Z := (z + 2 ^ 31) mod 2 ^ 32 - 2 ^ 31.

Definition int32_add (a b : Z) : Z := wrap32 (a + b).
Definition int32_sub (a b : Z) : Z := wrap32 (a - b).
Definition int32_mul (a b : Z) : Z := wrap32 (a * b).
Definition int32_floordiv (a b : Z) : Z := wrap32 (a / b).

(** The exact value lies in the range of [int32]. *)
Definition in_int32 (z : Z) : Prop := - 2 ^ 31 <= z < 2 ^ 31.

(** A [float64]: a number, or one of the three special values. *)
Inductive Float64 : Type :=
| Finite (q : Q)
| PosInf
| NegInf
| NaN.

(** [a / b] for an [int32] scalar [a] and an integer [b]. *)
Definition true_divide (a b : Z) : Float64 :=
  if b =? 0 then
    if 0 <? a then PosInf else if a <? 0 then NegInf else NaN
  else Finite (Qred (inject_Z a / inject_Z b)).

(** [msg_z] is the float [0.0] before a face is found and the integer
    [fw * fh] afterwards, so the triple holds values of both kinds. *)
Inductive PyNum : Type :=
| PyFloat (f : Float64)
| PyInt (z : Z).

(** [a < b] on floats, as a boolean. *)
Definition Qltb (a b : Q) : bool := negb (Qle_bool b a).

(** ** Data model *)

(** A rectangle as the detector returns it: [(x, y, w, h)]. *)
Record Rect : Type := mkRect { rect_x : Z; rect_y : Z; rect_w : Z; rect_h : Z }.

Definition Point : Type := (Z * Z)%type.
Definition Color : Type := (Z * Z * Z)%type.

Inductive Font : Type := FONT_HERSHEY_SIMPLEX.

(** The two drawing calls of the script.  The text of [putText] is the
    f-string [Rel Pos: (x, y)]; it is kept as the two numbers it prints. *)
Inductive Draw : Type :=
| DrawRectangle (pt1 pt2 : Point) (color : Color) (thickness : Z)
| DrawText (rel_x rel_y : Float64) (org : Point) (font : Font) (scale : Q)
           (color : Color) (thickness : Z).

(** A colour frame: its pixel grid (opaque, named by [pixels]), its
    dimensions, and what has been drawn on it so far.  [cv2.rectangle] and
    [cv2.putText] modify the frame in place; here they extend [drawn]. *)
Record Frame : Type := mkFrame {
  pixels : nat;
  rows : Z;
  cols : Z;
  drawn : list Draw
}.

(** The single-channel copy handed to the detector. *)
Record GrayFrame : Type := mkGray {
  gray_pixels : nat;
  gray_shape : Z * Z
}.

(** A frame without pixels. *)
Definition is_empty (frame : Frame) : bool :=
  (rows frame <=? 0) || (cols frame <=? 0).

(** The grey copy of a frame: same height and width. *)
Definition gray_of (frame : Frame) : GrayFrame :=
  {| gray_pixels := pixels frame; gray_shape := (rows frame, cols frame) |}.

(** [cv2.cvtColor(frame, cv2.COLOR_BGR2GRAY)]; OpenCV refuses an empty
    frame with [cv2.error]. *)
Definition cvtColor (frame : Frame) : result GrayFrame :=
  if is_empty frame then Raise Cv2Error else Ok (gray_of frame).

Definition rectangle (frame : Frame) (pt1 pt2 : Point) (color : Color)
    (thickness : Z) : Frame :=
  {| pixels := pixels frame; rows := rows frame; cols := cols frame;
     drawn := drawn frame ++ [DrawRectangle pt1 pt2 color thickness] |}.

Definition putText (frame : Frame) (rel_x rel_y : Float64) (org : Point)
    (font : Font) (scale : Q) (color : Color) (thickness : Z) : Frame :=
  {| pixels := pixels frame; rows := rows frame; cols := cols frame;
     drawn := drawn frame
              ++ [DrawText rel_x rel_y org font scale color thickness] |}.

(** The triple [(msg_x, msg_y, msg_z)]. *)
Definition RelativePosition : Type := (PyNum * PyNum * PyNum)%type.

Definition sentinel : RelativePosition :=
  (PyFloat (Finite 0), PyFloat (Finite 0), PyFloat (Finite 0)).

(** ** [max(faces, key=...)] *)

Section PyMax.
Context {A : Type} (key : A -> Z).

(** The scan of the builtin [max]: the running maximum is replaced only
    by an element whose key is strictly greater. *)
Fixpoint max_from (best : A) (l : list A) : A :=
  match l with
  | [] => best
  | a :: l' => if key best <? key a then max_from a l' else max_from best l'
  end.

Definition py_max (l : list A) : result A :=
  match l with
  | [] => Raise ValueError
  | a :: l' => Ok (max_from a l')
  end.
End PyMax.

(** [lambda rect: rect[2] * rect[3]], a product of two [int32] scalars. *)
Definition area (rect : Rect) : Z := int32_mul (rect_w rect) (rect_h rect).

(** ** The per-frame computation (lines 44-70) *)

(** Lines 55-59, for the selected rectangle and the frame shape [(h, w)]. *)
Definition relative_position (h w : Z) (face : Rect)
    : Float64 * Float64 * Z :=
  let '(x, y, fw, fh) := (rect_x face, rect_y face, rect_w face, rect_h face) in
  let cx := int32_add x (int32_floordiv fw 2) in
  let cy := int32_add y (int32_floordiv fh 2) in
  let msg_x := true_divide (int32_sub cx (w / 2)) (w / 2) in
  let msg_y := true_divide (int32_sub cy (h / 2)) (h / 2) in
  let msg_z := int32_mul fw fh in
  (msg_x, msg_y, msg_z).

(** Lines 54-70 once the face is selected: the frame as it will be shown
    and the triple. *)
Definition annotate (frame : Frame) (h w : Z) (face : Rect)
    : Frame * RelativePosition :=
  let '(x, y, fw, fh) := (rect_x face, rect_y face, rect_w face, rect_h face) in
  let '(msg_x, msg_y, msg_z) := relative_position h w face in
  let frame1 :=
    rectangle frame (x, y) (int32_add x fw, int32_add y fh) (255, 0, 0) 2 in
  let frame2 :=
    putText frame1 msg_x msg_y (10, 30) FONT_HERSHEY_SIMPLEX (7 # 10)
            (0, 255, 0) 2 in
  (frame2, (PyFloat msg_x, PyFloat msg_y, PyInt msg_z)).

Section FrameProcessor.
(** [face_cascade.detectMultiScale(gray, scaleFactor=1.1, minNeighbors=5)],
    a black box. *)
Variable detectMultiScale : GrayFrame -> list Rect.

(** Lines 46-70 for the grey copy [gray] of [frame]. *)
Definition derive (frame : Frame) (gray : GrayFrame)
    : result (Frame * RelativePosition) :=
  let faces := detectMultiScale gray in
  let '(h, w) := gray_shape gray in
  if (0 <? List.length faces)%nat then
    face <- py_max area faces ;;
    Ok (annotate frame h w face)
  else
    Ok (frame, sentinel).

(** Lines 44-70: returns the frame as it will be shown and the triple. *)
Definition process_frame (frame : Frame) : result (Frame * RelativePosition) :=
  gray <- cvtColor frame ;;
  derive frame gray.
End FrameProcessor.

(** ** The environment: camera, detector and window backend *)

(** The answers of the collaborators.  [read k] is what the call number [k]
    (from 0) of [cap.read()] returns: a frame, or nothing when [ret] is
    false.  [getWindowProperty k] is what the call number [k] of
    [cv2.getWindowProperty(ventana, cv2.WND_PROP_VISIBLE)] returns.  Each is
    called at most once per pass through the loop body and the loop goes on
    only after both were called, so in pass [k] (from 0) each receives its
    call number [k]. *)
Record Env : Type := mkEnv {
  isOpened : bool;
  read : nat -> option Frame;
  detectMultiScale : GrayFrame -> list Rect;
  getWindowProperty : nat -> Q
}.

Definition ventana : string := "Face detection".

(** What the script does to the outside, in order. *)
Inductive Event : Type :=
| EvVideoCapture (device : Z)
| EvIsOpened (opened : bool)
| EvRead (call : nat) (ret : option Frame)
| EvDetectMultiScale (gray : GrayFrame) (scaleFactor : Q) (minNeighbors : Z)
| EvImshow (winname : string) (frame : Frame)
| EvWaitKey (delay : Z)
| EvGetWindowProperty (winname : string) (value : Q)
| EvRelease
| EvDestroyAllWindows.

(** How the [while True] loop is left. *)
Inductive LoopExit : Type :=
| StreamEnded                    (* line 42: [break] after a failed read *)
| SurfaceClosed                  (* line 77: [break] after the window check *)
| Raised (e : Exception).        (* an exception leaves the loop and the script *)

(** The outcome of one pass through the loop body (lines 40-77). *)
Inductive Step : Type :=
| Continue (evs : list Event)
| Break (exit : LoopExit) (evs : list Event).

Definition loop_body (env : Env) (i : nat) : Step :=
  match read env i with
  | None => Break StreamEnded [EvRead i None]
  | Some frame =>
      match cvtColor frame with
      | Raise e => Break (Raised e) [EvRead i (Some frame)]
      | Ok gray =>
          let detect := EvDetectMultiScale gray (11 # 10) 5 in
          match derive (detectMultiScale env) frame gray with
          | Raise e => Break (Raised e) [EvRead i (Some frame); detect]
          | Ok (shown, _) =>
              let visible := getWindowProperty env i in
              let evs := [EvRead i (Some frame); detect;
                          EvImshow ventana shown; EvWaitKey 1;
                          EvGetWindowProperty ventana visible] in
              if Qltb visible 1 then Break SurfaceClosed evs
              else Continue evs
          end
      end
  end.

(** The loop from iteration [i] on, with [fuel] bounding the number of
    passes.  The result is the way the loop was left, the number of
    complete iterations when it was left, and the events from iteration [i]
    on; [None] when the fuel does not suffice. *)
Fixpoint main_loop (env : Env) (fuel : nat) (i : nat)
    : option (LoopExit * nat * list Event) :=
  match fuel with
  | O => None
  | S fuel' =>
      match loop_body env i with
      | Break SurfaceClosed evs => Some (SurfaceClosed, S i, evs)
      | Break exit evs => Some (exit, i, evs)
      | Continue evs =>
          match main_loop env fuel' (S i) with
          | None => None
          | Some (exit, n, tr) => Some (exit, n, evs ++ tr)
          end
      end
  end.

(** How the script ends. *)
Inductive Termination : Type :=
| ExitNormally
| Uncaught (e : Exception).

(** The whole script (lines 30-82). *)
Definition script (env : Env) (fuel : nat) : option (Termination * list Event) :=
  let startup := [EvVideoCapture 0; EvIsOpened (isOpened env)] in
  if negb (isOpened env) then
    Some (Uncaught (RuntimeError "Camera not accesible"), startup)
  else
    match main_loop env fuel 0 with
    | None => None
    | Some (Raised e, _, tr) => Some (Uncaught e, startup ++ tr)
    | Some (_, _, tr) =>
        Some (ExitNormally, startup ++ tr ++ [EvRelease; EvDestroyAllWindows])
    end.

(** ** Observations on traces *)

Definition is_read (e : Event) : bool :=
  match e with EvRead _ _ => true | _ => false end.
Definition is_failed_read (e : Event) : bool :=
  match e with EvRead _ None => true | _ => false end.
Definition is_detect (e : Event) : bool :=
  match e with EvDetectMultiScale _ _ _ => true | _ => false end.
Definition is_imshow (e : Event) : bool :=
  match e with EvImshow _ _ => true | _ => false end.
Definition is_check (e : Event) : bool :=
  match e with EvGetWindowProperty _ _ => true | _ => false end.
Definition is_release (e : Event) : bool :=
  match e with EvRelease => true | _ => false end.
Definition is_destroy (e : Event) : bool :=
  match e with EvDestroyAllWindows => true | _ => false end.

Definition count (p : Event -> bool) (tr : list Event) : nat :=
  List.length (filter p tr).

(** ** The normalization law as the specification words it *)

(** [(c - W/2) / (W/2)] with exact halves. *)
Definition spec_offset (c W : Z) : Q :=
  (inject_Z c - inject_Z W / 2) / (inject_Z W / 2).

(** The events of one pass. *)
Definition step_events (s : Step) : list Event :=
  match s with
  | Continue evs | Break _ evs => evs
  end.

(** The events of a pass that reads [frame] and shows [shown]. *)
Definition pass_events (env : Env) (i : nat) (frame shown : Frame)
    : list Event :=
  [EvRead i (Some frame); EvDetectMultiScale (gray_of frame) (11 # 10) 5;
   EvImshow ventana shown; EvWaitKey 1;
   EvGetWindowProperty ventana (getWindowProperty env i)].

(** The events of a pass that reads [frame] and is left by an exception:
    the detector was called if the conversion succeeded. *)
Definition raise_events (i : nat) (frame : Frame) : list Event :=
  EvRead i (Some frame)
  :: (if is_empty frame then []
      else [EvDetectMultiScale (gray_of frame) (11 # 10) 5]).

(** The four ways through the loop body. *)
Inductive BodyView (env : Env) (i : nat) : Step -> Prop :=
| view_end :
    read env i = None ->
    BodyView env i (Break StreamEnded [EvRead i None])
| view_raise frame e :
    read env i = Some frame ->
    process_frame (detectMultiScale env) frame = Raise e ->
    BodyView env i (Break (Raised e) (raise_events i frame))
| view_closed frame shown pos :
    read env i = Some frame ->
    process_frame (detectMultiScale env) frame = Ok (shown, pos) ->
    (getWindowProperty env i < 1)%Q ->
    BodyView env i (Break SurfaceClosed (pass_events env i frame shown))
| view_continue frame shown pos :
    read env i = Some frame ->
    process_frame (detectMultiScale env) frame = Ok (shown, pos) ->
    (1 <= getWindowProperty env i)%Q ->
    BodyView env i (Continue (pass_events env i frame shown)).

(** The loop as a relation: [Run env i exit n tr] when the loop, entered at
    pass [i], is left by [exit] after [n] complete iterations with the
    events [tr]. *)
Inductive Run (env : Env) : nat -> LoopExit -> nat -> list Event -> Prop :=
| run_end i :
    read env i = None ->
    Run env i StreamEnded i [EvRead i None]
| run_raise i frame e :
    read env i = Some frame ->
    process_frame (detectMultiScale env) frame = Raise e ->
    Run env i (Raised e) i (raise_events i frame)
| run_closed i frame shown pos :
    read env i = Some frame ->
    process_frame (detectMultiScale env) frame = Ok (shown, pos) ->
    (getWindowProperty env i < 1)%Q ->
    Run env i SurfaceClosed (S i) (pass_events env i frame shown)
| run_continue i frame shown pos exit n tr :
    read env i = Some frame ->
    process_frame (detectMultiScale env) frame = Ok (shown, pos) ->
    (1 <= getWindowProperty env i)%Q ->
    Run env (S i) exit n tr ->
    Run env i exit n (pass_events env i frame shown ++ tr).

(** The events a pass through the loop body can produce. *)
Definition loop_event (e : Event) : bool :=
  match e with
  | EvRead _ _ | EvDetectMultiScale _ _ _ | EvImshow _ _ | EvWaitKey _
  | EvGetWindowProperty _ _ => true
  | _ => false
  end.

(** The triple of a processed frame, without the frame. *)
Definition position_of (r : result (Frame * RelativePosition))
    : result RelativePosition :=
  match r with
  | Ok (_, pos) => Ok pos
  | Raise e => Raise e
  end.

(** ** Geometry of a rectangle in a frame *)

(** The floored centre of a rectangle (line 55), as exact integers. *)
Definition centre_x (face : Rect) : Z := rect_x face + rect_w face / 2.
Definition centre_y (face : Rect) : Z := rect_y face + rect_h face / 2.

(** The centre arithmetic of lines 55-58 stays within [int32]. *)
Definition centre_fits (frame : Frame) (face : Rect) : Prop :=
  in_int32 (rect_w face / 2) /\ in_int32 (centre_x face) /\
  in_int32 (centre_x face - cols frame / 2) /\
  in_int32 (rect_h face / 2) /\ in_int32 (centre_y face) /\
  in_int32 (centre_y face - rows frame / 2).

(** A rectangle of positive size that lies inside the frame. *)
Definition inside_frame (frame : Frame) (face : Rect) : Prop :=
  0 <= rect_x face /\ 1 <= rect_w face /\
  rect_x face + rect_w face <= cols frame /\
  0 <= rect_y face /\ 1 <= rect_h face /\
  rect_y face + rect_h face <= rows frame.

(** A float that is a number. *)
Definition is_finite (f : Float64) : bool :=
  match f with Finite _ => true | _ => false end.

(** ** Stub collaborators and sample inputs *)

(** A camera that delivers the listed frames and then fails every read. *)
Definition camera (frames : list Frame) : nat -> option Frame :=
  fun k => nth_error frames k.

(** A detector that returns the same rectangles for every frame. *)
Definition detector (faces : list Rect) : GrayFrame -> list Rect :=
  fun _ => faces.

(** A window that gives the listed answers and stays visible afterwards. *)
Definition window (answers : list Q) : nat -> Q :=
  fun k => nth k answers 1%Q.

Definition frame_640x480 : Frame := mkFrame 0 480 640 [].
Definition frame_641x480 : Frame := mkFrame 1 480 641 [].
Definition frame_1x480 : Frame := mkFrame 2 480 1 [].
Definition frame_0x0 : Frame := mkFrame 3 0 0 [].

(** Centre [(480, 240)], area [100 * 50]. *)
Definition face_right : Rect := mkRect 430 215 100 50.
(** Centre [(320, 240)]: the centre of a 640x480 frame. *)
Definition face_centred : Rect := mkRect 260 180 120 120.
(** Centre [(480, 240)] again, with an odd width. *)
Definition face_odd : Rect := mkRect 400 190 161 100.
Definition face_small : Rect := mkRect 10 10 60 60.
(** Same area as [face_centred], enumerated later. *)
Definition face_tie : Rect := mkRect 5 5 144 100.
(** A face at the right edge of a 640x480 frame. *)
Definition face_edge : Rect := mkRect 540 380 100 100.

Definition three_faces : list Rect := [face_small; face_centred; face_tie].

(** Two frames, then the stream ends; the window stays open. *)
Definition env_two_frames : Env :=
  mkEnv true (camera [frame_640x480; frame_640x480]) (detector [face_right])
        (window []).

(** The window is reported closed at the second check; the camera has more
    frames than that. *)
Definition env_closed_second : Env :=
  mkEnv true (camera [frame_640x480; frame_640x480; frame_640x480])
        (detector []) (window [1%Q; 0%Q]).

(** [frame_640x480] after [face_right] was drawn on it. *)
Definition shown_right : Frame :=
  putText (rectangle frame_640x480 (430, 215) (530, 265) (255, 0, 0) 2)
          (Finite (1 # 2)) (Finite 0) (10, 30) FONT_HERSHEY_SIMPLEX (7 # 10)
          (0, 255, 0) 2.

(** The loop events of [env_two_frames] and of [env_closed_second]. *)
Definition trace_two_frames : list Event :=
  pass_events env_two_frames 0 frame_640x480 shown_right
  ++ pass_events env_two_frames 1 frame_640x480 shown_right
  ++ [EvRead 2 None].

Definition trace_closed_second : list Event :=
  pass_events env_closed_second 0 frame_640x480 frame_640x480
  ++ pass_events env_closed_second 1 frame_640x480 frame_640x480.

Definition env_no_camera : Env :=
  mkEnv false (camera []) (detector []) (window []).

(** A camera that never stops delivering the same frame. *)
Definition env_endless : Env :=
  mkEnv true (fun _ => Some frame_640x480) (detector [face_right]) (window []).

(** A camera whose only frame is one pixel wide, with a detection on it. *)
Definition env_degenerate : Env :=
  mkEnv true (camera [frame_1x480]) (detector [face_small]) (window []).

(** A camera whose first frame has no pixels. *)
Definition env_empty_frame : Env :=
  mkEnv true (camera [frame_0x0; frame_640x480]) (detector []) (window []).

(** * Properties *)

(** ** Arithmetic of [int32] and of the true division *)

(** Bounds between concrete integers. *)
Ltac concrete_bounds :=
  vm_compute; repeat split;
  solve [reflexivity | (let H := fresh in intros H; discriminate H)].

Lemma wrap32_id (z : Z) : in_int32 z -> wrap32 z = z.
Proof.
  unfold in_int32, wrap32.
  change (2 ^ 31) with 2147483648. change (2 ^ 32) with 4294967296.
  intros H. rewrite Z.mod_small by lia. lia.
Qed.

Lemma wrap32_range (z : Z) : in_int32 (wrap32 z).
Proof.
  unfold in_int32, wrap32.
  change (2 ^ 31) with 2147483648. change (2 ^ 32) with 4294967296.
  pose proof (Z.mod_pos_bound (z + 2147483648) 4294967296). lia.
Qed.

Lemma true_divide_finite (a b : Z) :
  b <> 0 -> true_divide a b = Finite (Qred (inject_Z a / inject_Z b)).
Proof.
  intros Hb. unfold true_divide.
  destruct (Z.eqb_spec b 0) as [E | _]; [contradiction | reflexivity].
Qed.

Lemma true_divide_zero (a : Z) : is_finite (true_divide a 0) = false.
Proof.
  unfold true_divide. simpl (0 =? 0).
  destruct (0 <? a); [reflexivity |]. destruct (a <? 0); reflexivity.
Qed.

Lemma true_divide_of_zero (b : Z) : b <> 0 -> true_divide 0 b = Finite 0.
Proof.
  intros Hb. rewrite true_divide_finite by exact Hb. apply f_equal.
  transitivity (Qred 0); [| reflexivity].
  apply Qred_complete. unfold Qdiv. apply Qmult_0_l.
Qed.

Lemma half_nonzero (n : Z) : 0 <= n -> (n / 2 <> 0 <-> 2 <= n).
Proof.
  intros Hn. split.
  - intros H. destruct (Z_lt_le_dec n 2) as [L | G]; [| exact G].
    exfalso. apply H. apply Z.div_small. lia.
  - intros H E. assert (1 <= n / 2) by (apply Z.div_le_lower_bound; lia). lia.
Qed.

(** ** The scan of [max] *)

Section PyMaxFacts.
Context {A : Type} (key : A -> Z).

Lemma max_from_upper (l : list A) : forall best,
  key best <= key (max_from key best l) /\
  forall r, In r l -> key r <= key (max_from key best l).
Proof.
  induction l as [| a l IH]; intros best; simpl.
  - split; [lia | intros r []].
  - destruct (Z.ltb_spec (key best) (key a)) as [L | G].
    + destruct (IH a) as [Ha Hl]. split; [lia |].
      intros r [<- | Hr]; [exact Ha | apply Hl, Hr].
    + destruct (IH best) as [Hb Hl]. split; [exact Hb |].
      intros r [<- | Hr]; [lia | apply Hl, Hr].
Qed.

(** Either the start value survives, or the result sits in the list at a
    position before which every key is strictly smaller. *)
Lemma max_from_first (l : list A) : forall best,
  max_from key best l = best \/
  exists i, nth_error l i = Some (max_from key best l) /\
    key best < key (max_from key best l) /\
    forall j r, (j < i)%nat -> nth_error l j = Some r ->
      key r < key (max_from key best l).
Proof.
  induction l as [| a l IH]; intros best; simpl.
  - left; reflexivity.
  - destruct (Z.ltb_spec (key best) (key a)) as [L | G].
    + right. destruct (IH a) as [E | (i & Hi & Hlt & Hbefore)].
      * exists 0%nat. rewrite E. split; [reflexivity |]. split; [exact L |].
        intros j r Hj. inversion Hj.
      * exists (S i). split; [exact Hi |]. split; [lia |].
        intros [| j] r Hj Hr; simpl in Hr.
        -- injection Hr as <-. exact Hlt.
        -- apply (Hbefore j); [lia | exact Hr].
    + destruct (IH best) as [E | (i & Hi & Hlt & Hbefore)].
      * left; exact E.
      * right. exists (S i). split; [exact Hi |]. split; [exact Hlt |].
        intros [| j] r Hj Hr; simpl in Hr.
        -- injection Hr as <-. lia.
        -- apply (Hbefore j); [lia | exact Hr].
Qed.

Lemma max_from_in (l : list A) (best : A) :
  In (max_from key best l) (best :: l).
Proof.
  destruct (max_from_first l best) as [E | (i & Hi & _)].
  - left. symmetry. exact E.
  - right. apply (nth_error_In _ _ Hi).
Qed.
End PyMaxFacts.

(** ** The per-frame computation *)

Lemma is_empty_false (frame : Frame) :
  is_empty frame = false <-> 0 < rows frame /\ 0 < cols frame.
Proof.
  unfold is_empty. rewrite orb_false_iff, !Z.leb_gt. reflexivity.
Qed.

Lemma is_empty_true (frame : Frame) :
  is_empty frame = true <-> rows frame <= 0 \/ cols frame <= 0.
Proof.
  unfold is_empty. rewrite orb_true_iff, !Z.leb_le. reflexivity.
Qed.

Lemma cvtColor_ok (frame : Frame) (gray : GrayFrame) :
  cvtColor frame = Ok gray <-> is_empty frame = false /\ gray = gray_of frame.
Proof.
  unfold cvtColor. destruct (is_empty frame); split.
  - discriminate.
  - intros [H _]; discriminate.
  - intros H. split; [reflexivity | congruence].
  - intros [_ ->]. reflexivity.
Qed.

Section FrameFacts.
Variable detect : GrayFrame -> list Rect.
Variable frame : Frame.

Lemma process_frame_nonempty :
  is_empty frame = false ->
  process_frame detect frame = derive detect frame (gray_of frame).
Proof. intros E. unfold process_frame, cvtColor. rewrite E. reflexivity. Qed.

(** An empty frame is refused by the conversion. *)
Lemma process_frame_refused :
  is_empty frame = true -> process_frame detect frame = Raise Cv2Error.
Proof. intros E. unfold process_frame, cvtColor. rewrite E. reflexivity. Qed.

(** Without a detection the frame passes through untouched. *)
Lemma process_frame_empty :
  is_empty frame = false ->
  detect (gray_of frame) = [] ->
  process_frame detect frame = Ok (frame, sentinel).
Proof.
  intros Hne E. rewrite (process_frame_nonempty Hne).
  unfold derive. simpl. rewrite E. reflexivity.
Qed.

(** With a detection the result is decided by lines 54-70. *)
Lemma process_frame_face (face : Rect) :
  is_empty frame = false ->
  py_max area (detect (gray_of frame)) = Ok face ->
  process_frame detect frame
    = Ok (annotate frame (rows frame) (cols frame) face).
Proof.
  intros Hne Hmax. rewrite (process_frame_nonempty Hne).
  unfold derive. simpl gray_shape. cbv iota beta.
  destruct (detect (gray_of frame)) as [| a l] eqn:E; [discriminate |].
  simpl Nat.ltb. cbv iota. rewrite Hmax. reflexivity.
Qed.

Lemma py_max_nonempty (faces : list Rect) :
  faces <> [] -> exists face, py_max area faces = Ok face.
Proof.
  destruct faces as [| a l]; [congruence |]. intros _. eexists; reflexivity.
Qed.

(** Once the conversion succeeded nothing in lines 46-70 raises. *)
Lemma derive_ok (gray : GrayFrame) :
  exists shown pos, derive detect frame gray = Ok (shown, pos).
Proof.
  unfold derive. destruct (gray_shape gray) as [h w].
  destruct (detect gray) as [| a l]; simpl.
  - do 2 eexists. reflexivity.
  - destruct (annotate frame h w (max_from area a l)) as [shown pos].
    do 2 eexists. reflexivity.
Qed.

Lemma process_frame_ok_nonempty (shown : Frame) (pos : RelativePosition) :
  process_frame detect frame = Ok (shown, pos) -> is_empty frame = false.
Proof.
  intros H. destruct (is_empty frame) eqn:E; [| reflexivity].
  rewrite (process_frame_refused E) in H. discriminate.
Qed.
End FrameFacts.

Lemma py_max_in (faces : list Rect) (face : Rect) :
  py_max area faces = Ok face ->
  In face faces /\ forall r, In r faces -> area r <= area face.
Proof.
  destruct faces as [| a l]; [discriminate |]. simpl py_max.
  intros H. assert (E : face = max_from area a l) by congruence. subst face.
  split; [apply max_from_in |].
  destruct (max_from_upper area l a) as [Ha Hl].
  intros r [<- | Hr]; [exact Ha | apply Hl, Hr].
Qed.

Lemma area_exact (r : Rect) :
  in_int32 (rect_w r * rect_h r) -> area r = rect_w r * rect_h r.
Proof. intros H. unfold area, int32_mul. apply wrap32_id, H. Qed.

(** Within [int32] the centre arithmetic is exact. *)
Lemma centre_exact (frame : Frame) (face : Rect) :
  centre_fits frame face ->
  int32_sub (int32_add (rect_x face) (int32_floordiv (rect_w face) 2))
            (cols frame / 2)
    = centre_x face - cols frame / 2 /\
  int32_sub (int32_add (rect_y face) (int32_floordiv (rect_h face) 2))
            (rows frame / 2)
    = centre_y face - rows frame / 2.
Proof.
  intros (Hw & Hx & Hxc & Hh & Hy & Hyc).
  unfold int32_sub, int32_add, int32_floordiv, centre_x, centre_y in *.
  rewrite (wrap32_id _ Hw), (wrap32_id _ Hx), (wrap32_id _ Hxc).
  rewrite (wrap32_id _ Hh), (wrap32_id _ Hy), (wrap32_id _ Hyc).
  split; reflexivity.
Qed.

Lemma relative_position_fits (frame : Frame) (face : Rect) :
  centre_fits frame face ->
  relative_position (rows frame) (cols frame) face
    = (true_divide (centre_x face - cols frame / 2) (cols frame / 2),
       true_divide (centre_y face - rows frame / 2) (rows frame / 2),
       area face).
Proof.
  intros Hfit. destruct (centre_exact frame face Hfit) as [Ex Ey].
  unfold relative_position. cbv zeta iota beta. rewrite Ex, Ey. reflexivity.
Qed.

(** The triple and the frame shown, for a rectangle whose centre fits. *)
Lemma annotate_fits (frame : Frame) (face : Rect) :
  centre_fits frame face ->
  annotate frame (rows frame) (cols frame) face
    = (putText
         (rectangle frame (rect_x face, rect_y face)
            (int32_add (rect_x face) (rect_w face),
             int32_add (rect_y face) (rect_h face))
            (255, 0, 0) 2)
         (true_divide (centre_x face - cols frame / 2) (cols frame / 2))
         (true_divide (centre_y face - rows frame / 2) (rows frame / 2))
         (10, 30) FONT_HERSHEY_SIMPLEX (7 # 10) (0, 255, 0) 2,
       (PyFloat (true_divide (centre_x face - cols frame / 2) (cols frame / 2)),
        PyFloat (true_divide (centre_y face - rows frame / 2) (rows frame / 2)),
        PyInt (area face))).
Proof.
  intros Hfit. unfold annotate. cbv zeta iota beta.
  rewrite (relative_position_fits frame face Hfit). reflexivity.
Qed.

(** The third component is always the key of the selection. *)
Lemma annotate_area (frame : Frame) (h w : Z) (face : Rect) :
  exists shown msg_x msg_y,
    annotate frame h w face
      = (shown, (PyFloat msg_x, PyFloat msg_y, PyInt (area face))).
Proof.
  unfold annotate, relative_position. cbv zeta iota beta.
  do 3 eexists. reflexivity.
Qed.

(** With exact halves available, the floored half is the half. *)
Lemma spec_offset_even (c W : Z) :
  Z.even W = true -> W / 2 <> 0 ->
  (inject_Z (c - W / 2) / inject_Z (W / 2) == spec_offset c W)%Q.
Proof.
  intros Hev Hnz. unfold spec_offset.
  assert (EW : W = 2 * (W / 2)).
  { apply Z.even_spec in Hev. destruct Hev as [k ->].
    rewrite Z.mul_comm, Z.div_mul by lia. lia. }
  set (k := W / 2) in *.
  assert (Hk : ~ (inject_Z k == 0)%Q).
  { intros E. apply Hnz. unfold Qeq in E. simpl in E. lia. }
  rewrite EW. unfold Z.sub.
  rewrite inject_Z_plus, inject_Z_opp, inject_Z_mult.
  change (inject_Z 2) with 2%Q. field. exact Hk.
Qed.

(** ** Selection of the face *)

(** C3.  When the detector returns at least one rectangle, and the areas
    [width * height] of its rectangles are within [int32] (below [2^31]
    pixels), the frame is annotated with a rectangle of the detector's list
    such that no rectangle has a larger [width * height] and every
    rectangle enumerated before it has a strictly smaller one: among the
    rectangles of maximal area it is the first. *)
Theorem largest_face_first (detect : GrayFrame -> list Rect)
    (frame : Frame) (gray : GrayFrame) :
  cvtColor frame = Ok gray ->
  detect gray <> [] ->
  (forall r, In r (detect gray) -> in_int32 (rect_w r * rect_h r)) ->
  exists face i,
    nth_error (detect gray) i = Some face /\
    (forall r, In r (detect gray) ->
       rect_w r * rect_h r <= rect_w face * rect_h face) /\
    (forall j r, (j < i)%nat -> nth_error (detect gray) j = Some r ->
       rect_w r * rect_h r < rect_w face * rect_h face) /\
    process_frame detect frame
      = Ok (annotate frame (rows frame) (cols frame) face).
Proof.
  intros Hgray Hne Hbound.
  apply cvtColor_ok in Hgray. destruct Hgray as [Hnonempty ->].
  destruct (detect (gray_of frame)) as [| a l] eqn:E; [congruence |].
  assert (Hmax : py_max area (detect (gray_of frame))
                 = Ok (max_from area a l)) by (rewrite E; reflexivity).
  pose proof (process_frame_face detect frame _ Hnonempty Hmax) as Hproc.
  clear Hne Hmax.
  pose proof (max_from_in area l a) as Hm.
  destruct (max_from_upper area l a) as [Ha Hl].
  pose proof (max_from_first area l a) as Hfirst.
  set (m := max_from area a l) in *.
  assert (Hexact : forall r, In r (a :: l) -> area r = rect_w r * rect_h r).
  { intros r Hr. apply area_exact, Hbound, Hr. }
  assert (Hupper : forall r, In r (a :: l) ->
                     rect_w r * rect_h r <= rect_w m * rect_h m).
  { intros r Hr. rewrite <- (Hexact r Hr), <- (Hexact m Hm).
    destruct Hr as [<- | Hr]; [exact Ha | apply Hl, Hr]. }
  destruct Hfirst as [Em | (i & Hi & Hlt & Hbefore)].
  - exists m, 0%nat. rewrite Em in *.
    split; [reflexivity |]. split; [exact Hupper |]. split; [| exact Hproc].
    intros j r Hj. inversion Hj.
  - exists m, (S i).
    split; [exact Hi |]. split; [exact Hupper |]. split; [| exact Hproc].
    intros [| j] r Hj Hr; simpl in Hr.
    + injection Hr as <-.
      rewrite <- (Hexact a (or_introl eq_refl)), <- (Hexact m Hm). exact Hlt.
    + assert (Hin : In r (a :: l)) by (right; apply (nth_error_In _ _ Hr)).
      rewrite <- (Hexact r Hin), <- (Hexact m Hm).
      apply (Hbefore j); [lia | exact Hr].
Qed.

Lemma largest_face_first_witness :
  exists face i,
    nth_error (detector three_faces (gray_of frame_640x480)) i = Some face /\
    (forall r, In r (detector three_faces (gray_of frame_640x480)) ->
       rect_w r * rect_h r <= rect_w face * rect_h face) /\
    (forall j r, (j < i)%nat ->
       nth_error (detector three_faces (gray_of frame_640x480)) j = Some r ->
       rect_w r * rect_h r < rect_w face * rect_h face) /\
    process_frame (detector three_faces) frame_640x480
      = Ok (annotate frame_640x480 (rows frame_640x480) (cols frame_640x480)
              face).
Proof.
  apply (largest_face_first (detector three_faces) frame_640x480
           (gray_of frame_640x480)).
  - reflexivity.
  - discriminate.
  - intros r [<- | [<- | [<- | []]]]; concrete_bounds.
Defined.

(** Of two rectangles of area 14400 the one enumerated first is chosen and
    drawn. *)
Example largest_face_tie :
  py_max area three_faces = Ok face_centred /\
  process_frame (detector three_faces) frame_640x480
    = Ok (annotate frame_640x480 480 640 face_centred).
Proof. split; reflexivity. Qed.

(** ** The position triple *)

(** C1, as amended.  For a frame of at least 2x2 pixels and a selected face
    whose centre arithmetic stays within [int32] (as it does for every
    rectangle inside a frame), the horizontal offset is
    [(cx - W//2) / (W//2)] with the floored half width, and the vertical
    offset is [(cy - H//2) / (H//2)] with the floored half height, where
    [(cx, cy)] is the floored centre of the selected face.  For an even
    width this is [(cx - W/2) / (W/2)], and likewise for an even height. *)
Theorem offsets_use_floored_halves (detect : GrayFrame -> list Rect)
    (frame : Frame) (face : Rect) :
  py_max area (detect (gray_of frame)) = Ok face ->
  2 <= cols frame -> 2 <= rows frame ->
  centre_fits frame face ->
  let cx := rect_x face + rect_w face / 2 in
  let cy := rect_y face + rect_h face / 2 in
  exists shown msg_x msg_y msg_z,
    process_frame detect frame
      = Ok (shown, (PyFloat (Finite msg_x), PyFloat (Finite msg_y), msg_z)) /\
    (msg_x == inject_Z (cx - cols frame / 2) / inject_Z (cols frame / 2))%Q /\
    (msg_y == inject_Z (cy - rows frame / 2) / inject_Z (rows frame / 2))%Q /\
    (Z.even (cols frame) = true -> (msg_x == spec_offset cx (cols frame))%Q) /\
    (Z.even (rows frame) = true -> (msg_y == spec_offset cy (rows frame))%Q).
Proof.
  intros Hmax Hw Hh Hfit cx cy.
  assert (Nw : cols frame / 2 <> 0) by (apply half_nonzero; lia).
  assert (Nh : rows frame / 2 <> 0) by (apply half_nonzero; lia).
  assert (Hne : is_empty frame = false) by (apply is_empty_false; lia).
  rewrite (process_frame_face _ _ _ Hne Hmax), (annotate_fits _ _ Hfit).
  rewrite (true_divide_finite _ _ Nw), (true_divide_finite _ _ Nh).
  do 4 eexists. split; [reflexivity |].
  unfold centre_x, centre_y. fold cx cy. repeat split.
  - apply Qred_correct.
  - apply Qred_correct.
  - intros Hev. rewrite Qred_correct. apply spec_offset_even; assumption.
  - intros Hev. rewrite Qred_correct. apply spec_offset_even; assumption.
Qed.

Lemma offsets_use_floored_halves_witness :
  exists shown msg_x msg_y msg_z,
    process_frame (detector [face_right]) frame_640x480
      = Ok (shown, (PyFloat (Finite msg_x), PyFloat (Finite msg_y), msg_z)) /\
    (msg_x == inject_Z (480 - 640 / 2) / inject_Z (640 / 2))%Q /\
    (msg_y == inject_Z (240 - 480 / 2) / inject_Z (480 / 2))%Q /\
    (Z.even 640 = true -> (msg_x == spec_offset 480 640)%Q) /\
    (Z.even 480 = true -> (msg_y == spec_offset 240 480)%Q).
Proof.
  apply (offsets_use_floored_halves (detector [face_right]) frame_640x480
           face_right).
  - reflexivity.
  - simpl; lia.
  - simpl; lia.
  - concrete_bounds.
Defined.

(** The literal example of the normalization law: width 640 and face centre
    480 give 0.5 (and a vertically centred face gives 0). *)
Example offset_640_480 :
  position_of (process_frame (detector [face_right]) frame_640x480)
    = Ok (PyFloat (Finite (1 # 2)), PyFloat (Finite 0), PyInt 5000).
Proof. reflexivity. Qed.

(** C1, as stated, fails for an odd width.  In a frame 641 pixels wide a
    face with centre 480 gets the offset [(480 - 320) / 320 = 1/2], while
    [(480 - 641/2) / (641/2)] is [319/641]. *)
Lemma exact_halves_fail_on_odd_width :
  py_max area (detector [face_odd] (gray_of frame_641x480)) = Ok face_odd /\
  rect_x face_odd + rect_w face_odd / 2 = 480 /\
  cols frame_641x480 = 641 /\
  position_of (process_frame (detector [face_odd]) frame_641x480)
    = Ok (PyFloat (Finite (1 # 2)), PyFloat (Finite 0), PyInt 16100) /\
  (spec_offset 480 641 == 319 # 641)%Q /\
  ~ (1 # 2 == spec_offset 480 641)%Q.
Proof.
  repeat split; try reflexivity.
  intros H. vm_compute in H. discriminate.
Qed.

(** C4.  When the floored centre of the selected face is exactly the frame
    centre ([cx = W/2] and [cy = H/2], that is [2 cx = W] and [2 cy = H]),
    the computed offsets are both [0.0], whatever the size of the face; and
    they are computed for every such frame that is not empty. *)
Theorem centred_face_zero_offsets (detect : GrayFrame -> list Rect)
    (frame : Frame) (face : Rect) :
  py_max area (detect (gray_of frame)) = Ok face ->
  centre_fits frame face ->
  2 * (rect_x face + rect_w face / 2) = cols frame ->
  2 * (rect_y face + rect_h face / 2) = rows frame ->
  (forall shown msg_x msg_y msg_z,
     process_frame detect frame = Ok (shown, (msg_x, msg_y, msg_z)) ->
     msg_x = PyFloat (Finite 0) /\ msg_y = PyFloat (Finite 0)) /\
  (0 < cols frame -> 0 < rows frame ->
   exists shown,
     process_frame detect frame
       = Ok (shown, (PyFloat (Finite 0), PyFloat (Finite 0),
                     PyInt (area face)))).
Proof.
  intros Hmax Hfit Hx Hy.
  assert (Ex : centre_x face - cols frame / 2 = 0).
  { unfold centre_x. rewrite <- Hx, Z.mul_comm, Z.div_mul by lia. lia. }
  assert (Ey : centre_y face - rows frame / 2 = 0).
  { unfold centre_y. rewrite <- Hy, Z.mul_comm, Z.div_mul by lia. lia. }
  assert (Hgo : is_empty frame = false ->
    exists shown, process_frame detect frame
      = Ok (shown, (PyFloat (Finite 0), PyFloat (Finite 0),
                    PyInt (area face)))).
  { intros Hne. apply is_empty_false in Hne as Hpos.
    assert (Nw : cols frame / 2 <> 0).
    { apply half_nonzero; [lia |]. unfold centre_x in Ex. lia. }
    assert (Nh : rows frame / 2 <> 0).
    { apply half_nonzero; [lia |]. unfold centre_y in Ey. lia. }
    rewrite (process_frame_face _ _ _ Hne Hmax), (annotate_fits _ _ Hfit).
    rewrite Ex, Ey.
    rewrite (true_divide_of_zero _ Nw), (true_divide_of_zero _ Nh).
    eexists. reflexivity. }
  split.
  - intros shown msg_x msg_y msg_z Hok.
    pose proof (process_frame_ok_nonempty _ _ _ _ Hok) as Hne.
    destruct (Hgo Hne) as [shown' E]. rewrite E in Hok.
    split; congruence.
  - intros Hw Hh. apply Hgo. apply is_empty_false. lia.
Qed.

Lemma centred_face_zero_offsets_witness :
  (forall shown msg_x msg_y msg_z,
     process_frame (detector [face_small; face_centred]) frame_640x480
       = Ok (shown, (msg_x, msg_y, msg_z)) ->
     msg_x = PyFloat (Finite 0) /\ msg_y = PyFloat (Finite 0)) /\
  (exists shown,
     process_frame (detector [face_small; face_centred]) frame_640x480
       = Ok (shown, (PyFloat (Finite 0), PyFloat (Finite 0),
                     PyInt (area face_centred)))).
Proof.
  destruct (centred_face_zero_offsets (detector [face_small; face_centred])
              frame_640x480 face_centred) as [Hzero Hdone];
    try reflexivity.
  { concrete_bounds. }
  split; [exact Hzero | apply Hdone; reflexivity].
Defined.

(** C5.  The third component of the triple is the integer [fw * fh] of the
    selected face, in pixels, whenever that product is within [int32] (a
    face of less than [2^31] pixels); the frame size does not enter.  It is
    computed for every frame that is not empty. *)
Theorem area_component_exact (detect : GrayFrame -> list Rect)
    (frame : Frame) (face : Rect) :
  py_max area (detect (gray_of frame)) = Ok face ->
  in_int32 (rect_w face * rect_h face) ->
  (forall shown msg_x msg_y msg_z,
     process_frame detect frame = Ok (shown, (msg_x, msg_y, msg_z)) ->
     msg_z = PyInt (rect_w face * rect_h face)) /\
  (0 < cols frame -> 0 < rows frame ->
   exists shown msg_x msg_y,
     process_frame detect frame
       = Ok (shown, (msg_x, msg_y, PyInt (rect_w face * rect_h face)))).
Proof.
  intros Hmax Hbound.
  assert (Hgo : is_empty frame = false ->
    exists shown msg_x msg_y,
      process_frame detect frame
        = Ok (shown, (msg_x, msg_y, PyInt (rect_w face * rect_h face)))).
  { intros Hne. rewrite (process_frame_face _ _ _ Hne Hmax).
    destruct (annotate_area frame (rows frame) (cols frame) face)
      as (shown & mx & my & E).
    rewrite E, (area_exact _ Hbound). do 3 eexists. reflexivity. }
  split.
  - intros shown msg_x msg_y msg_z Hok.
    pose proof (process_frame_ok_nonempty _ _ _ _ Hok) as Hne.
    destruct (Hgo Hne) as (s & mx & my & E). rewrite E in Hok. congruence.
  - intros Hw Hh. apply Hgo. apply is_empty_false. lia.
Qed.

Lemma area_component_exact_witness :
  (forall shown msg_x msg_y msg_z,
     process_frame (detector [face_right]) frame_640x480
       = Ok (shown, (msg_x, msg_y, msg_z)) ->
     msg_z = PyInt (100 * 50)) /\
  (exists shown msg_x msg_y,
     process_frame (detector [face_right]) frame_640x480
       = Ok (shown, (msg_x, msg_y, PyInt (100 * 50)))).
Proof.
  destruct (area_component_exact (detector [face_right]) frame_640x480
              face_right) as [Harea Hdone].
  - reflexivity.
  - concrete_bounds.
  - split; [exact Harea | apply Hdone; simpl; lia].
Defined.

(** A face of [65536 * 65536] pixels has the area component 0. *)
Example area_wraps :
  area (mkRect 0 0 65536 65536) = 0 /\
  area (mkRect 0 0 50000 50000) = -1794967296.
Proof. split; reflexivity. Qed.

(** C10, as amended.  The two divisions give numbers exactly from 2 pixels
    on: in a frame at least 2 wide and 2 high every face gets finite
    offsets.  In a frame 1 pixel wide (or high) a detection does reach the
    division by zero, which raises nothing: the offset on that axis is
    [inf], [-inf] or [nan], and the frame is processed and shown like any
    other.  A frame of width or height 0 does not get that far: the colour
    conversion refuses it with [cv2.error]. *)
Theorem division_needs_two_pixels (detect : GrayFrame -> list Rect)
    (frame : Frame) :
  (2 <= cols frame -> 2 <= rows frame ->
   (forall face, exists msg_x msg_y msg_z,
      relative_position (rows frame) (cols frame) face
        = (Finite msg_x, Finite msg_y, msg_z)) /\
   exists shown pos, process_frame detect frame = Ok (shown, pos)) /\
  (forall face,
     py_max area (detect (gray_of frame)) = Ok face ->
     1 <= cols frame -> 1 <= rows frame ->
     exists shown msg_x msg_y msg_z,
       process_frame detect frame
         = Ok (shown, (PyFloat msg_x, PyFloat msg_y, msg_z)) /\
       (cols frame = 1 -> is_finite msg_x = false) /\
       (rows frame = 1 -> is_finite msg_y = false)) /\
  (cols frame = 0 \/ rows frame = 0 ->
   process_frame detect frame = Raise Cv2Error).
Proof.
  split; [| split].
  - intros Hw Hh.
    assert (Nw : cols frame / 2 <> 0) by (apply half_nonzero; lia).
    assert (Nh : rows frame / 2 <> 0) by (apply half_nonzero; lia).
    split.
    + intros face. unfold relative_position. cbv zeta iota beta.
      rewrite (true_divide_finite _ _ Nw), (true_divide_finite _ _ Nh).
      do 3 eexists. reflexivity.
    + rewrite process_frame_nonempty by (apply is_empty_false; lia).
      apply derive_ok.
  - intros face Hmax Hw Hh.
    assert (Hne : is_empty frame = false) by (apply is_empty_false; lia).
    rewrite (process_frame_face _ _ _ Hne Hmax).
    unfold annotate, relative_position. cbv zeta iota beta.
    do 4 eexists. split; [reflexivity |]. split.
    + intros ->. apply true_divide_zero.
    + intros ->. apply true_divide_zero.
  - intros Hzero. apply process_frame_refused, is_empty_true.
    destruct Hzero as [-> | ->]; lia.
Qed.

Lemma division_needs_two_pixels_witness :
  ((forall face, exists msg_x msg_y msg_z,
      relative_position (rows frame_640x480) (cols frame_640x480) face
        = (Finite msg_x, Finite msg_y, msg_z)) /\
   exists shown pos,
     process_frame (detector [face_right]) frame_640x480 = Ok (shown, pos)) /\
  (exists shown msg_x msg_y msg_z,
     process_frame (detector [face_small]) frame_1x480
       = Ok (shown, (PyFloat msg_x, PyFloat msg_y, msg_z)) /\
     (cols frame_1x480 = 1 -> is_finite msg_x = false) /\
     (rows frame_1x480 = 1 -> is_finite msg_y = false)) /\
  process_frame (detector [face_small]) frame_0x0 = Raise Cv2Error.
Proof.
  split; [| split].
  - apply (division_needs_two_pixels (detector [face_right]) frame_640x480);
      simpl; lia.
  - destruct (division_needs_two_pixels (detector [face_small]) frame_1x480)
      as (_ & Hone & _).
    apply (Hone face_small).
    + reflexivity.
    + simpl; lia.
    + simpl; lia.
  - apply (division_needs_two_pixels (detector [face_small]) frame_0x0).
    left; reflexivity.
Defined.

(** C10, as stated, fails for a frame one pixel wide: with a detection the
    division by zero raises nothing.  The horizontal offset is [inf], the
    triple is returned, and the pass shows the frame and goes on. *)
Lemma one_pixel_frame_does_not_fail :
  cols frame_1x480 = 1 /\
  detector [face_small] (gray_of frame_1x480) <> [] /\
  position_of (process_frame (detector [face_small]) frame_1x480)
    = Ok (PyFloat PosInf, PyFloat (Finite (-5 # 6)), PyInt 3600) /\
  (forall e, process_frame (detector [face_small]) frame_1x480 <> Raise e) /\
  exists shown,
    loop_body env_degenerate 0
      = Continue (pass_events env_degenerate 0 frame_1x480 shown).
Proof.
  split; [reflexivity |]. split; [discriminate |].
  split; [reflexivity |]. split; [intros e; discriminate |].
  eexists. reflexivity.
Qed.
(** ** The loop body *)

Lemma Qltb_true (a b : Q) : Qltb a b = true <-> (a < b)%Q.
Proof.
  unfold Qltb. rewrite negb_true_iff. split.
  - intros H. apply Qnot_le_lt. intros L.
    apply Qle_bool_iff in L. congruence.
  - intros H. destruct (Qle_bool b a) eqn:E; [| reflexivity].
    apply Qle_bool_iff in E. exfalso. exact (Qlt_not_le _ _ H E).
Qed.

Lemma Qltb_false (a b : Q) : Qltb a b = false <-> (b <= a)%Q.
Proof.
  unfold Qltb. rewrite negb_false_iff. apply Qle_bool_iff.
Qed.

(** The loop body in terms of [process_frame]. *)
Lemma loop_body_raise (env : Env) (i : nat) (frame : Frame) (e : Exception) :
  read env i = Some frame ->
  process_frame (detectMultiScale env) frame = Raise e ->
  loop_body env i = Break (Raised e) (raise_events i frame).
Proof.
  intros Hread Hproc. unfold loop_body, raise_events. rewrite Hread.
  unfold process_frame, cvtColor in *.
  destruct (is_empty frame).
  - cbv beta iota delta [bind] in Hproc. congruence.
  - cbv beta iota delta [bind] in Hproc. rewrite Hproc. reflexivity.
Qed.

Lemma loop_body_ok (env : Env) (i : nat) (frame shown : Frame)
    (pos : RelativePosition) :
  read env i = Some frame ->
  process_frame (detectMultiScale env) frame = Ok (shown, pos) ->
  loop_body env i
    = if Qltb (getWindowProperty env i) 1
      then Break SurfaceClosed (pass_events env i frame shown)
      else Continue (pass_events env i frame shown).
Proof.
  intros Hread Hproc. unfold loop_body. rewrite Hread.
  unfold process_frame, cvtColor in *.
  destruct (is_empty frame); [discriminate |].
  cbv beta iota delta [bind] in Hproc. rewrite Hproc. reflexivity.
Qed.

Lemma loop_body_continue (env : Env) (i : nat) (frame shown : Frame)
    (pos : RelativePosition) :
  read env i = Some frame ->
  process_frame (detectMultiScale env) frame = Ok (shown, pos) ->
  (1 <= getWindowProperty env i)%Q ->
  loop_body env i = Continue (pass_events env i frame shown).
Proof.
  intros Hread Hproc Hvis. rewrite (loop_body_ok _ _ _ _ _ Hread Hproc).
  apply Qltb_false in Hvis. rewrite Hvis. reflexivity.
Qed.

Lemma loop_body_closed (env : Env) (i : nat) (frame shown : Frame)
    (pos : RelativePosition) :
  read env i = Some frame ->
  process_frame (detectMultiScale env) frame = Ok (shown, pos) ->
  (getWindowProperty env i < 1)%Q ->
  loop_body env i = Break SurfaceClosed (pass_events env i frame shown).
Proof.
  intros Hread Hproc Hvis. rewrite (loop_body_ok _ _ _ _ _ Hread Hproc).
  apply Qltb_true in Hvis. rewrite Hvis. reflexivity.
Qed.

Lemma loop_body_view (env : Env) (i : nat) : BodyView env i (loop_body env i).
Proof.
  destruct (read env i) as [frame |] eqn:Hread.
  2: { unfold loop_body. rewrite Hread. constructor. exact Hread. }
  destruct (process_frame (detectMultiScale env) frame) as [[shown pos] | e]
    eqn:Hproc.
  - destruct (Qlt_le_dec (getWindowProperty env i) 1) as [Hvis | Hvis].
    + rewrite (loop_body_closed _ _ _ _ _ Hread Hproc Hvis).
      apply (view_closed env i frame shown pos); auto.
    + rewrite (loop_body_continue _ _ _ _ _ Hread Hproc Hvis).
      apply (view_continue env i frame shown pos); auto.
  - rewrite (loop_body_raise _ _ _ _ Hread Hproc).
    apply (view_raise env i frame e); auto.
Qed.

(** C2.  On a frame for which the detector returns no rectangle, the triple
    is the sentinel [(0.0, 0.0, 0.0)], nothing is drawn, and the frame shown
    in that pass is the frame as it was read. *)
Theorem no_detection_sentinel (env : Env) (i : nat) (frame : Frame)
    (gray : GrayFrame) :
  read env i = Some frame ->
  cvtColor frame = Ok gray ->
  detectMultiScale env gray = [] ->
  process_frame (detectMultiScale env) frame
    = Ok (frame, (PyFloat (Finite 0), PyFloat (Finite 0), PyFloat (Finite 0))) /\
  step_events (loop_body env i)
    = [EvRead i (Some frame);
       EvDetectMultiScale gray (11 # 10) 5;
       EvImshow ventana frame; EvWaitKey 1;
       EvGetWindowProperty ventana (getWindowProperty env i)].
Proof.
  intros Hread Hgray Hnone.
  apply cvtColor_ok in Hgray. destruct Hgray as [Hne ->].
  pose proof (process_frame_empty _ _ Hne Hnone) as Hproc.
  split; [exact Hproc |].
  rewrite (loop_body_ok _ _ _ _ _ Hread Hproc).
  destruct (Qltb (getWindowProperty env i) 1); reflexivity.
Qed.

Lemma no_detection_sentinel_witness :
  process_frame (detectMultiScale env_closed_second) frame_640x480
    = Ok (frame_640x480,
          (PyFloat (Finite 0), PyFloat (Finite 0), PyFloat (Finite 0))) /\
  step_events (loop_body env_closed_second 0)
    = [EvRead 0 (Some frame_640x480);
       EvDetectMultiScale (gray_of frame_640x480) (11 # 10) 5;
       EvImshow ventana frame_640x480; EvWaitKey 1;
       EvGetWindowProperty ventana (getWindowProperty env_closed_second 0)].
Proof.
  apply (no_detection_sentinel env_closed_second 0 frame_640x480
           (gray_of frame_640x480));
    reflexivity.
Defined.

(** A frame with a detection is shown with the rectangle and the text. *)
Example detection_is_drawn :
  process_frame (detector [face_right]) frame_640x480
    = Ok ({| pixels := 0; rows := 480; cols := 640;
             drawn := [DrawRectangle (430, 215) (530, 265) (255, 0, 0) 2;
                       DrawText (Finite (1 # 2)) (Finite 0) (10, 30)
                                FONT_HERSHEY_SIMPLEX
                                (7 # 10) (0, 255, 0) 2] |},
          (PyFloat (Finite (1 # 2)), PyFloat (Finite 0), PyInt 5000)).
Proof. reflexivity. Qed.

(** ** The loop *)

Lemma count_app (p : Event -> bool) (l1 l2 : list Event) :
  count p (l1 ++ l2) = (count p l1 + count p l2)%nat.
Proof. unfold count. rewrite filter_app, length_app. reflexivity. Qed.

Lemma count_none (p : Event -> bool) (tr : list Event) :
  Forall (fun e => loop_event e = true) tr ->
  (forall e, loop_event e = true -> p e = false) ->
  count p tr = 0%nat.
Proof.
  intros Hall Hp. unfold count.
  induction Hall as [| e l He _ IH]; [reflexivity |].
  simpl. rewrite (Hp e He). exact IH.
Qed.

(** The function and the relation agree. *)
Lemma main_loop_run (env : Env) (fuel : nat) :
  forall i exit n tr,
    main_loop env fuel i = Some (exit, n, tr) -> Run env i exit n tr.
Proof.
  induction fuel as [| fuel IH]; intros i exit n tr H; [discriminate |].
  simpl in H. destruct (loop_body_view env i) as
    [Hread | frame e Hread Hproc | frame shown pos Hread Hproc Hvis
     | frame shown pos Hread Hproc Hvis].
  - injection H as <- <- <-. apply run_end, Hread.
  - injection H as <- <- <-. apply (run_raise env i frame e); assumption.
  - injection H as <- <- <-.
    apply (run_closed env i frame shown pos); assumption.
  - destruct (main_loop env fuel (S i)) as [[[exit' n'] tr'] |] eqn:E;
      [| discriminate].
    injection H as <- <- <-.
    apply (run_continue env i frame shown pos); auto.
Qed.

Lemma run_le (env : Env) (i : nat) (exit : LoopExit) (n : nat)
    (tr : list Event) :
  Run env i exit n tr -> (i <= n)%nat.
Proof. induction 1; lia. Qed.

Lemma run_main_loop (env : Env) (i : nat) (exit : LoopExit) (n : nat)
    (tr : list Event) :
  Run env i exit n tr ->
  forall fuel, (count is_read tr <= fuel)%nat ->
    main_loop env fuel i = Some (exit, n, tr).
Proof.
  induction 1 as
    [i Hread | i frame e Hread Hproc | i frame shown pos Hread Hproc Hvis
     | i frame shown pos exit n tr Hread Hproc Hvis Hrun IH];
    intros [| fuel] Hfuel;
    try (rewrite count_app in Hfuel);
    try (exfalso; unfold count, pass_events in Hfuel; simpl in Hfuel; lia);
    simpl main_loop.
  - unfold loop_body. rewrite Hread. reflexivity.
  - rewrite (loop_body_raise env i frame e) by assumption. reflexivity.
  - rewrite (loop_body_closed env i frame shown pos) by assumption.
    reflexivity.
  - rewrite (loop_body_continue env i frame shown pos) by assumption.
    change (count is_read (pass_events env i frame shown)) with 1%nat in Hfuel.
    rewrite IH by lia. reflexivity.
Qed.

(** Counting the calls of a run. *)
Lemma run_counts (env : Env) (i : nat) (exit : LoopExit) (n : nat)
    (tr : list Event) :
  Run env i exit n tr ->
  (count is_read tr + i)%nat
    = (match exit with SurfaceClosed => n | _ => S n end) /\
  (count is_check tr + i)%nat = n /\
  (count is_imshow tr + i)%nat = n /\
  Forall (fun e => loop_event e = true) tr.
Proof.
  induction 1 as
    [i Hread | i frame e Hread Hproc | i frame shown pos Hread Hproc Hvis
     | i frame shown pos exit n tr Hread Hproc Hvis Hrun IH].
  - repeat split; repeat constructor.
  - unfold raise_events. destruct (is_empty frame);
      repeat split; repeat constructor.
  - repeat split; repeat constructor.
  - destruct IH as (Hr & Hc & Hs & Hall).
    rewrite !count_app. change (count is_read (pass_events _ _ _ _)) with 1%nat.
    change (count is_check (pass_events env i frame shown)) with 1%nat.
    change (count is_imshow (pass_events env i frame shown)) with 1%nat.
    repeat split; try (destruct exit; lia).
    apply Forall_app. split; [repeat constructor | exact Hall].
Qed.

(** Every complete iteration but a closing one saw the window visible, and
    every complete iteration got its frame. *)
Lemma run_prefix (env : Env) (i : nat) (exit : LoopExit) (n : nat)
    (tr : list Event) :
  Run env i exit n tr ->
  forall j, (i <= j < n)%nat ->
    read env j <> None /\
    ((1 <= getWindowProperty env j)%Q \/ (exit = SurfaceClosed /\ n = S j)).
Proof.
  induction 1 as
    [i Hread | i frame e Hread Hproc | i frame shown pos Hread Hproc Hvis
     | i frame shown pos exit n tr Hread Hproc Hvis Hrun IH];
    intros j Hj; try lia.
  - assert (j = i) by lia. subst j. split; [congruence | right; auto].
  - destruct (Nat.eq_dec j i) as [-> | Hne].
    + split; [congruence | left; exact Hvis].
    + apply IH. lia.
Qed.

(** A failed read is the last thing a run does. *)
Lemma run_failed_read (env : Env) (i : nat) (exit : LoopExit) (n : nat)
    (tr : list Event) (k : nat) :
  Run env i exit n tr ->
  In (EvRead k None) tr ->
  exit = StreamEnded /\ n = k /\ count is_failed_read tr = 1%nat /\
  exists tr', tr = tr' ++ [EvRead k None].
Proof.
  induction 1 as
    [i Hread | i frame e Hread Hproc | i frame shown pos Hread Hproc Hvis
     | i frame shown pos exit n tr Hread Hproc Hvis Hrun IH];
    intros Hin.
  - destruct Hin as [E | []]. injection E as ->.
    repeat split. exists []. reflexivity.
  - unfold raise_events in Hin.
    destruct (is_empty frame); simpl in Hin;
      [destruct Hin as [E | []] | destruct Hin as [E | [E | []]]];
      discriminate.
  - simpl in Hin.
    destruct Hin as [E | [E | [E | [E | [E | []]]]]]; discriminate.
  - apply in_app_or in Hin. destruct Hin as [Hin | Hin].
    { simpl in Hin.
      destruct Hin as [E | [E | [E | [E | [E | []]]]]]; discriminate. }
    destruct (IH Hin) as (-> & -> & Hc & tr' & ->).
    repeat split.
    + rewrite count_app, Hc. reflexivity.
    + exists (pass_events env i frame shown ++ tr').
      rewrite app_assoc. reflexivity.
Qed.

(** A not-visible answer is the last thing a run does. *)
Lemma run_closed_report (env : Env) (i : nat) (exit : LoopExit) (n : nat)
    (tr : list Event) (v : Q) :
  Run env i exit n tr ->
  In (EvGetWindowProperty ventana v) tr -> (v < 1)%Q ->
  exit = SurfaceClosed /\
  exists k, n = S k /\ (getWindowProperty env k < 1)%Q /\
    exists tr', tr = tr' ++ [EvGetWindowProperty ventana (getWindowProperty env k)].
Proof.
  induction 1 as
    [i Hread | i frame e Hread Hproc | i frame shown pos Hread Hproc Hvis
     | i frame shown pos exit n tr Hread Hproc Hvis Hrun IH];
    intros Hin Hv.
  - destruct Hin as [E | []]; discriminate.
  - unfold raise_events in Hin.
    destruct (is_empty frame); simpl in Hin;
      [destruct Hin as [E | []] | destruct Hin as [E | [E | []]]];
      discriminate.
  - split; [reflexivity |]. exists i. repeat split; [exact Hvis |].
    exists [EvRead i (Some frame);
            EvDetectMultiScale (gray_of frame) (11 # 10) 5;
            EvImshow ventana shown; EvWaitKey 1].
    reflexivity.
  - apply in_app_or in Hin. destruct Hin as [Hin | Hin].
    { simpl in Hin.
      destruct Hin as [E | [E | [E | [E | [E | []]]]]]; try discriminate.
      injection E as <-. exfalso. exact (Qlt_not_le _ _ Hv Hvis). }
    destruct (IH Hin Hv) as (-> & k & -> & Hk & tr' & ->).
    split; [reflexivity |]. exists k. repeat split; [exact Hk |].
    exists (pass_events env i frame shown ++ tr').
    rewrite app_assoc. reflexivity.
Qed.

(** *** Termination *)

(** A failing read bounds the loop, whatever the window does. *)
Lemma run_within_failed_read (env : Env) (N : nat) :
  read env N = None ->
  forall d i, (i + d)%nat = N ->
    exists exit n tr, Run env i exit n tr /\ (n <= N)%nat.
Proof.
  intros Hnone. induction d as [| d IH]; intros i Hi.
  - replace i with N by lia.
    exists StreamEnded, N, [EvRead N None]. split; [constructor; auto | lia].
  - destruct (read env i) as [frame |] eqn:Hread.
    2: { exists StreamEnded, i, [EvRead i None].
         split; [constructor; auto | lia]. }
    destruct (process_frame (detectMultiScale env) frame)
      as [[shown pos] | e] eqn:Hproc.
    2: { do 3 eexists. split; [eapply run_raise; eauto | lia]. }
    destruct (Qlt_le_dec (getWindowProperty env i) 1) as [Hclosed | Hvis].
    + do 3 eexists. split; [eapply run_closed; eauto | lia].
    + destruct (IH (S i)) as (exit & n & tr & Hrun & Hn); [lia |].
      do 3 eexists. split; [eapply run_continue; eauto | exact Hn].
Qed.

(** A not-visible answer bounds the loop, whatever the camera does. *)
Lemma run_within_closed_window (env : Env) (M : nat) :
  (getWindowProperty env M < 1)%Q ->
  forall d i, (i + d)%nat = M ->
    exists exit n tr, Run env i exit n tr /\ (n <= S M)%nat.
Proof.
  intros Hclosed. induction d as [| d IH]; intros i Hi;
    (destruct (read env i) as [frame |] eqn:Hread;
     [| exists StreamEnded, i, [EvRead i None];
        split; [constructor; auto | lia]]);
    (destruct (process_frame (detectMultiScale env) frame)
       as [[shown pos] | e] eqn:Hproc;
     [| do 3 eexists; split; [eapply run_raise; eauto | lia]]).
  - assert (i = M) by lia. subst i.
    do 3 eexists. split; [eapply run_closed; eauto | lia].
  - destruct (Qlt_le_dec (getWindowProperty env i) 1) as [Hc | Hvis].
    + do 3 eexists. split; [eapply run_closed; eauto | lia].
    + destruct (IH (S i)) as (exit & n & tr & Hrun & Hn); [lia |].
      do 3 eexists. split; [eapply run_continue; eauto | exact Hn].
Qed.

(** With frames that are processed and a window that stays visible, the
    loop reaches the failing read. *)
Lemma run_to_failed_read (env : Env) (N : nat) :
  read env N = None ->
  (forall k, (k < N)%nat -> read env k <> None) ->
  (forall k frame, (k < N)%nat -> read env k = Some frame ->
     (exists shown pos,
        process_frame (detectMultiScale env) frame = Ok (shown, pos)) /\
     (1 <= getWindowProperty env k)%Q) ->
  forall d i, (i + d)%nat = N ->
    exists tr, Run env i StreamEnded N tr /\ In (EvRead N None) tr.
Proof.
  intros Hnone Hsome Hgood. induction d as [| d IH]; intros i Hi.
  - replace i with N by lia. exists [EvRead N None].
    split; [constructor; auto | left; reflexivity].
  - destruct (read env i) as [frame |] eqn:Hread.
    2: { exfalso. apply (Hsome i); [lia | exact Hread]. }
    destruct (Hgood i frame) as [(shown & pos & Hproc) Hvis]; [lia | auto |].
    destruct (IH (S i)) as (tr & Hrun & Hin); [lia |].
    exists (pass_events env i frame shown ++ tr). split.
    + eapply run_continue; eauto.
    + apply in_or_app. right. exact Hin.
Qed.

(** With frames that keep coming and are processed, the loop reaches the
    first not-visible answer. *)
Lemma run_to_closed_window (env : Env) (M : nat) :
  (getWindowProperty env M < 1)%Q ->
  (forall k, (k < M)%nat -> (1 <= getWindowProperty env k)%Q) ->
  (forall k, (k <= M)%nat -> exists frame shown pos,
     read env k = Some frame /\
     process_frame (detectMultiScale env) frame = Ok (shown, pos)) ->
  forall d i, (i + d)%nat = M ->
    exists tr, Run env i SurfaceClosed (S M) tr.
Proof.
  intros Hclosed Hvis Hgood. induction d as [| d IH]; intros i Hi;
    (destruct (Hgood i) as (frame & shown & pos & Hread & Hproc); [lia |]).
  - assert (i = M) by lia. subst i.
    eexists. eapply run_closed; eauto.
  - destruct (IH (S i)) as (tr & Hrun); [lia |].
    eexists. eapply run_continue; eauto. apply Hvis. lia.
Qed.

(** *** The script around the loop *)

Lemma script_after_break (env : Env) (fuel : nat) (exit : LoopExit)
    (n : nat) (tr : list Event) :
  isOpened env = true ->
  main_loop env fuel 0 = Some (exit, n, tr) ->
  exit = StreamEnded \/ exit = SurfaceClosed ->
  script env fuel
    = Some (ExitNormally,
            [EvVideoCapture 0; EvIsOpened true] ++ tr
              ++ [EvRelease; EvDestroyAllWindows]).
Proof.
  intros Hopen Hloop Hexit. unfold script. rewrite Hopen, Hloop. simpl negb.
  cbv iota. destruct Hexit as [-> | ->]; reflexivity.
Qed.

(** *** End of stream *)

(** C6.  Let the read call number [N = n + 1] be the first that returns no
    frame.  The loop then terminates, after at most [n] complete
    iterations.  When that call is made, the loop has executed exactly [n]
    complete iterations, the failed read is its last action and the only
    failed read (it is not retried, [N] reads in all), and the loop is left
    by [break]: the script ends normally.  The call is made whenever the
    first [n] frames are processed without an exception and the window is
    still visible after each of them. *)
Theorem failed_read_ends_stream (env : Env) (n : nat) :
  (forall k, (k < n)%nat -> read env k <> None) ->
  read env n = None ->
  (forall fuel, (n < fuel)%nat ->
     exists exit m tr,
       main_loop env fuel 0 = Some (exit, m, tr) /\ (m <= n)%nat) /\
  (forall fuel exit m tr,
     main_loop env fuel 0 = Some (exit, m, tr) ->
     In (EvRead n None) tr ->
     exit = StreamEnded /\ m = n /\
     count is_read tr = S n /\ count is_failed_read tr = 1%nat /\
     (exists tr', tr = tr' ++ [EvRead n None]) /\
     (isOpened env = true ->
      script env fuel
        = Some (ExitNormally,
                [EvVideoCapture 0; EvIsOpened true] ++ tr
                  ++ [EvRelease; EvDestroyAllWindows]))) /\
  ((forall k frame, (k < n)%nat -> read env k = Some frame ->
      (exists shown pos,
         process_frame (detectMultiScale env) frame = Ok (shown, pos)) /\
      (1 <= getWindowProperty env k)%Q) ->
   forall fuel, (n < fuel)%nat ->
     exists tr,
       main_loop env fuel 0 = Some (StreamEnded, n, tr) /\
       In (EvRead n None) tr).
Proof.
  intros Hsome Hnone. split; [| split].
  - intros fuel Hfuel.
    destruct (run_within_failed_read env n Hnone n 0%nat)
      as (exit & m & tr & Hrun & Hm); [lia |].
    exists exit, m, tr. split; [| exact Hm].
    apply (run_main_loop _ _ _ _ _ Hrun).
    destruct (run_counts _ _ _ _ _ Hrun) as (Hr & _). destruct exit; lia.
  - intros fuel exit m tr Hloop Hin.
    pose proof (main_loop_run _ _ _ _ _ _ Hloop) as Hrun.
    destruct (run_failed_read _ _ _ _ _ _ Hrun Hin) as (-> & -> & Hc & Htl).
    destruct (run_counts _ _ _ _ _ Hrun) as (Hr & _).
    repeat split; try assumption.
    + lia.
    + intros Hopen. apply (script_after_break env fuel StreamEnded n); auto.
  - intros Hgood fuel Hfuel.
    destruct (run_to_failed_read env n Hnone Hsome Hgood n 0%nat)
      as (tr & Hrun & Hin); [lia |].
    exists tr. split; [| exact Hin].
    apply (run_main_loop _ _ _ _ _ Hrun).
    destruct (run_counts _ _ _ _ _ Hrun) as (Hr & _). lia.
Qed.

Lemma failed_read_ends_stream_witness :
  (exists exit m tr,
     main_loop env_two_frames 3 0 = Some (exit, m, tr) /\ (m <= 2)%nat) /\
  (main_loop env_two_frames 3 0 = Some (StreamEnded, 2%nat, trace_two_frames) /\
   count is_read trace_two_frames = 3%nat /\
   count is_failed_read trace_two_frames = 1%nat /\
   script env_two_frames 3
     = Some (ExitNormally,
             [EvVideoCapture 0; EvIsOpened true] ++ trace_two_frames
               ++ [EvRelease; EvDestroyAllWindows])) /\
  (exists tr,
     main_loop env_two_frames 5 0 = Some (StreamEnded, 2%nat, tr) /\
     In (EvRead 2 None) tr).
Proof.
  assert (Hsome : forall k, (k < 2)%nat -> read env_two_frames k <> None).
  { intros [| [| k]] Hk; simpl; try discriminate. lia. }
  assert (Hnone : read env_two_frames 2 = None) by reflexivity.
  destruct (failed_read_ends_stream env_two_frames 2 Hsome Hnone)
    as (Hstop & Hreached & Hreach).
  assert (Hloop : main_loop env_two_frames 3 0
                  = Some (StreamEnded, 2%nat, trace_two_frames))
    by reflexivity.
  assert (Hin : In (EvRead 2 None) trace_two_frames).
  { unfold trace_two_frames. apply in_or_app. right.
    apply in_or_app. right. left. reflexivity. }
  destruct (Hreached 3%nat _ _ _ Hloop Hin) as (_ & _ & Hr & Hf & _ & Hscript).
  split; [apply Hstop; lia | split].
  - split; [exact Hloop |]. split; [exact Hr |]. split; [exact Hf |].
    apply Hscript. reflexivity.
  - apply Hreach; [| lia].
    intros [| [| k]] frame Hk Hread; try lia;
      (split; [do 2 eexists; injection Hread as <-; reflexivity
              | unfold Qle; simpl; lia]).
Defined.

(** The read that fails is call 3: two complete iterations, three reads,
    and the script ends normally. *)
Example stream_of_two_frames :
  exists tr,
    main_loop env_two_frames 3 0 = Some (StreamEnded, 2%nat, tr) /\
    count is_read tr = 3%nat /\ count is_imshow tr = 2%nat /\
    script env_two_frames 3
      = Some (ExitNormally,
              [EvVideoCapture 0; EvIsOpened true] ++ tr
                ++ [EvRelease; EvDestroyAllWindows]).
Proof. eexists. repeat split. Qed.

(** *** Window closed *)

(** C7.  Let the visibility check of iteration [M = m + 1] be the first
    that answers not-visible.  The loop then terminates no later than right
    after iteration [M]: at most [M] complete iterations and at most [M]
    reads.  When a not-visible answer is given, the loop is left there by
    [break]: exactly [M] complete iterations, [M] reads and [M] checks, the
    check being its last action, so no further frame is acquired.  The
    answer is given whenever the camera delivers [M] frames and they are
    processed without an exception. *)
Theorem closed_window_ends_loop (env : Env) (m : nat) :
  (forall k, (k < m)%nat -> (1 <= getWindowProperty env k)%Q) ->
  (getWindowProperty env m < 1)%Q ->
  (forall fuel, (m < fuel)%nat ->
     exists exit n tr,
       main_loop env fuel 0 = Some (exit, n, tr) /\
       (n <= S m)%nat /\ (count is_read tr <= S m)%nat) /\
  (forall fuel exit n tr v,
     main_loop env fuel 0 = Some (exit, n, tr) ->
     In (EvGetWindowProperty ventana v) tr -> (v < 1)%Q ->
     exit = SurfaceClosed /\ n = S m /\
     count is_read tr = S m /\ count is_check tr = S m /\
     exists tr',
       tr = tr' ++ [EvGetWindowProperty ventana (getWindowProperty env m)]) /\
  ((forall k, (k <= m)%nat -> exists frame shown pos,
      read env k = Some frame /\
      process_frame (detectMultiScale env) frame = Ok (shown, pos)) ->
   forall fuel, (m < fuel)%nat ->
     exists tr, main_loop env fuel 0 = Some (SurfaceClosed, S m, tr)).
Proof.
  intros Hvis Hclosed. split; [| split].
  - intros fuel Hfuel.
    destruct (run_within_closed_window env m Hclosed m 0%nat)
      as (exit & n & tr & Hrun & Hn); [lia |].
    assert (Hreads : (count is_read tr <= S m)%nat).
    { destruct (run_counts _ _ _ _ _ Hrun) as (Hr & _).
      destruct (Nat.eq_dec n (S m)) as [-> | Hne].
      - destruct (run_prefix _ _ _ _ _ Hrun m) as [_ [Hv | [-> _]]];
          [lia | | lia].
        exfalso. exact (Qlt_not_le _ _ Hclosed Hv).
      - destruct exit; lia. }
    exists exit, n, tr. split; [| split; [exact Hn | exact Hreads]].
    apply (run_main_loop _ _ _ _ _ Hrun). lia.
  - intros fuel exit n tr v Hloop Hin Hv.
    pose proof (main_loop_run _ _ _ _ _ _ Hloop) as Hrun.
    destruct (run_closed_report _ _ _ _ _ _ Hrun Hin Hv)
      as (-> & k & -> & Hk & tr' & Htr).
    assert (k = m).
    { destruct (Nat.lt_trichotomy k m) as [L | [E | G]]; [| exact E |].
      - exfalso. exact (Qlt_not_le _ _ Hk (Hvis k L)).
      - destruct (run_prefix _ _ _ _ _ Hrun m) as [_ [Hm | [_ Hm]]];
          [lia | | lia].
        exfalso. exact (Qlt_not_le _ _ Hclosed Hm). }
    subst k. destruct (run_counts _ _ _ _ _ Hrun) as (Hr & Hc & _).
    repeat split; try lia. exists tr'. exact Htr.
  - intros Hgood fuel Hfuel.
    destruct (run_to_closed_window env m Hclosed Hvis Hgood m 0%nat)
      as (tr & Hrun); [lia |].
    exists tr. apply (run_main_loop _ _ _ _ _ Hrun).
    destruct (run_counts _ _ _ _ _ Hrun) as (Hr & _). lia.
Qed.

Lemma closed_window_ends_loop_witness :
  (exists exit n tr,
     main_loop env_closed_second 2 0 = Some (exit, n, tr) /\
     (n <= 2)%nat /\ (count is_read tr <= 2)%nat) /\
  (main_loop env_closed_second 2 0
     = Some (SurfaceClosed, 2%nat, trace_closed_second) /\
   count is_read trace_closed_second = 2%nat /\
   count is_check trace_closed_second = 2%nat /\
   exists tr',
     trace_closed_second
       = tr' ++ [EvGetWindowProperty ventana
                   (getWindowProperty env_closed_second 1)]) /\
  (exists tr,
     main_loop env_closed_second 9 0 = Some (SurfaceClosed, 2%nat, tr)).
Proof.
  assert (Hvis : forall k, (k < 1)%nat ->
                   (1 <= getWindowProperty env_closed_second k)%Q).
  { intros [| k] Hk; [| lia]. unfold Qle. simpl. lia. }
  assert (Hclosed : (getWindowProperty env_closed_second 1 < 1)%Q)
    by reflexivity.
  destruct (closed_window_ends_loop env_closed_second 1 Hvis Hclosed)
    as (Hstop & Hreported & Hreach).
  assert (Hloop : main_loop env_closed_second 2 0
                  = Some (SurfaceClosed, 2%nat, trace_closed_second))
    by reflexivity.
  assert (Hin : In (EvGetWindowProperty ventana 0) trace_closed_second).
  { unfold trace_closed_second. apply in_or_app. right.
    do 4 right. left. reflexivity. }
  destruct (Hreported 2%nat _ _ _ 0%Q Hloop Hin) as (_ & _ & Hr & Hc & Htl);
    [reflexivity |].
  split; [apply Hstop; lia | split].
  - split; [exact Hloop |]. split; [exact Hr |]. split; [exact Hc | exact Htl].
  - apply Hreach; [| lia].
    intros [| [| k]] Hk; try lia; do 3 eexists; split; reflexivity.
Defined.

(** The window is closed after iteration 2 while the camera still has a
    third frame: two reads, no third. *)
Example window_closed_after_two :
  exists tr,
    main_loop env_closed_second 2 0 = Some (SurfaceClosed, 2%nat, tr) /\
    main_loop env_closed_second 7 0 = Some (SurfaceClosed, 2%nat, tr) /\
    count is_read tr = 2%nat /\
    script env_closed_second 7
      = Some (ExitNormally,
              [EvVideoCapture 0; EvIsOpened true] ++ tr
                ++ [EvRelease; EvDestroyAllWindows]).
Proof. eexists. repeat split. Qed.

(** *** Start and end of the script *)

(** C8.  When the camera cannot be opened the script raises
    [RuntimeError("Camera not accesible")] right after the check and the
    loop is never entered: no frame is read, handed to the detector or
    shown.  No amount of fuel is needed. *)
Theorem camera_not_opened_is_fatal (env : Env) (fuel : nat) :
  isOpened env = false ->
  exists tr,
    script env fuel
      = Some (Uncaught (RuntimeError "Camera not accesible"), tr) /\
    tr = [EvVideoCapture 0; EvIsOpened false] /\
    count is_read tr = 0%nat /\ count is_detect tr = 0%nat /\
    count is_imshow tr = 0%nat /\ count is_check tr = 0%nat.
Proof.
  intros Hclosed. unfold script. rewrite Hclosed. simpl negb. cbv iota.
  eexists. repeat split.
Qed.

Lemma camera_not_opened_is_fatal_witness :
  exists tr,
    script env_no_camera 0
      = Some (Uncaught (RuntimeError "Camera not accesible"), tr) /\
    tr = [EvVideoCapture 0; EvIsOpened false] /\
    count is_read tr = 0%nat /\ count is_detect tr = 0%nat /\
    count is_imshow tr = 0%nat /\ count is_check tr = 0%nat.
Proof. apply (camera_not_opened_is_fatal env_no_camera 0). reflexivity. Defined.

(** C9.  Whenever the loop is left by one of its two [break]s, after a failed
    read or after a not-visible answer, the script goes on to release the
    camera and then to destroy all windows.  Both happen after every event
    of the loop, and each happens exactly once in the whole run. *)
Theorem resources_released_once (env : Env) (fuel : nat) (exit : LoopExit)
    (n : nat) (tr : list Event) :
  isOpened env = true ->
  main_loop env fuel 0 = Some (exit, n, tr) ->
  exit = StreamEnded \/ exit = SurfaceClosed ->
  exists t,
    script env fuel = Some (ExitNormally, t) /\
    t = ([EvVideoCapture 0; EvIsOpened true] ++ tr)
          ++ [EvRelease; EvDestroyAllWindows] /\
    count is_release t = 1%nat /\ count is_destroy t = 1%nat /\
    count is_release tr = 0%nat /\ count is_destroy tr = 0%nat.
Proof.
  intros Hopen Hloop Hexit.
  pose proof (main_loop_run _ _ _ _ _ _ Hloop) as Hrun.
  destruct (run_counts _ _ _ _ _ Hrun) as (_ & _ & _ & Hall).
  assert (Hrel : count is_release tr = 0%nat).
  { apply count_none; [exact Hall |]. intros [] H; try discriminate; reflexivity. }
  assert (Hdes : count is_destroy tr = 0%nat).
  { apply count_none; [exact Hall |]. intros [] H; try discriminate; reflexivity. }
  eexists. split; [| split; [reflexivity |]].
  - rewrite (script_after_break env fuel exit n tr Hopen Hloop Hexit).
    rewrite app_assoc. reflexivity.
  - rewrite !count_app, Hrel, Hdes. repeat split.
Qed.

Lemma resources_released_once_witness :
  exists tr,
    main_loop env_two_frames 3 0 = Some (StreamEnded, 2%nat, tr) /\
    exists t,
      script env_two_frames 3 = Some (ExitNormally, t) /\
      t = ([EvVideoCapture 0; EvIsOpened true] ++ tr)
            ++ [EvRelease; EvDestroyAllWindows] /\
      count is_release t = 1%nat /\ count is_destroy t = 1%nat /\
      count is_release tr = 0%nat /\ count is_destroy tr = 0%nat.
Proof.
  eexists. split; [reflexivity |].
  apply (resources_released_once env_two_frames 3 StreamEnded 2).
  - reflexivity.
  - reflexivity.
  - left; reflexivity.
Defined.

(** The same after the window was closed. *)
Example released_after_window_closed :
  exists t,
    script env_closed_second 2 = Some (ExitNormally, t) /\
    count is_release t = 1%nat /\ count is_destroy t = 1%nat /\
    skipn 12 t = [EvRelease; EvDestroyAllWindows].
Proof. eexists. repeat split. Qed.

(** An exception inside the loop leaves the script at once. *)
Example empty_frame_aborts :
  script env_empty_frame 5
    = Some (Uncaught Cv2Error,
            [EvVideoCapture 0; EvIsOpened true; EvRead 0 (Some frame_0x0)]).
Proof. reflexivity. Qed.
(** * Further properties of the script *)

(** ** The offsets as numbers *)

Lemma quotient_shape (a b : Z) :
  0 < b -> (inject_Z a / inject_Z b == a # Z.to_pos b)%Q.
Proof.
  intros Hb. destruct b as [| p | p]; try lia.
  unfold Qdiv, Qinv, inject_Z, Qmult, Qeq. simpl. lia.
Qed.

Lemma quotient_sign (a b : Z) :
  0 < b ->
  ((Qred (inject_Z a / inject_Z b) == 0)%Q <-> a = 0) /\
  ((0 < Qred (inject_Z a / inject_Z b))%Q <-> 0 < a) /\
  ((Qred (inject_Z a / inject_Z b) < 0)%Q <-> a < 0).
Proof.
  intros Hb. rewrite Qred_correct, (quotient_shape a b Hb).
  unfold Qeq, Qlt. simpl. repeat split; intros H; lia.
Qed.

Lemma quotient_unit_range (a b : Z) :
  0 < b -> - b <= a <= b ->
  (-1 <= Qred (inject_Z a / inject_Z b) <= 1)%Q.
Proof.
  intros Hb Hab. rewrite Qred_correct, (quotient_shape a b Hb).
  unfold Qle. simpl. rewrite Z2Pos.id by lia. lia.
Qed.


Lemma inside_frame_fits (frame : Frame) (face : Rect) :
  inside_frame frame face ->
  cols frame < 2 ^ 31 -> rows frame < 2 ^ 31 ->
  centre_fits frame face.
Proof.
  intros (Hx & Hfw & Hxw & Hy & Hfh & Hyh) Hc Hr.
  unfold centre_fits, in_int32, centre_x, centre_y.
  change (2 ^ 31) with 2147483648 in *.
  repeat split; Z.div_mod_to_equations; lia.
Qed.

(** The triple, for a frame of at least 2x2 pixels and a centre that fits. *)
Lemma process_frame_detected (detect : GrayFrame -> list Rect)
    (frame : Frame) (face : Rect) :
  py_max area (detect (gray_of frame)) = Ok face ->
  2 <= cols frame -> 2 <= rows frame ->
  centre_fits frame face ->
  exists shown,
    process_frame detect frame =
      Ok (shown,
          (PyFloat (Finite (Qred (inject_Z (centre_x face - cols frame / 2)
                                  / inject_Z (cols frame / 2)))),
           PyFloat (Finite (Qred (inject_Z (centre_y face - rows frame / 2)
                                  / inject_Z (rows frame / 2)))),
           PyInt (area face))).
Proof.
  intros Hmax Hw Hh Hfit.
  assert (Hne : is_empty frame = false) by (apply is_empty_false; lia).
  rewrite (process_frame_face _ _ _ Hne Hmax), (annotate_fits _ _ Hfit).
  rewrite !true_divide_finite by (apply half_nonzero; lia).
  eexists. reflexivity.
Qed.

(** X1.  A detected face of positive size that lies inside a frame of at
    least 2x2 pixels (and of less than [2^31] pixels a side, as every OpenCV
    matrix) gets offsets between -1 and 1 on both axes. *)
Theorem offsets_within_unit_range (detect : GrayFrame -> list Rect)
    (frame : Frame) (face : Rect) :
  py_max area (detect (gray_of frame)) = Ok face ->
  2 <= cols frame < 2 ^ 31 -> 2 <= rows frame < 2 ^ 31 ->
  inside_frame frame face ->
  exists shown qx qy msg_z,
    process_frame detect frame
      = Ok (shown, (PyFloat (Finite qx), PyFloat (Finite qy), msg_z)) /\
    (-1 <= qx <= 1)%Q /\ (-1 <= qy <= 1)%Q.
Proof.
  intros Hmax [Hw Hw'] [Hh Hh'] Hin.
  pose proof (inside_frame_fits _ _ Hin Hw' Hh') as Hfit.
  destruct Hin as (Hx & Hfw & Hxw & Hy & Hfh & Hyh).
  destruct (process_frame_detected _ _ _ Hmax Hw Hh Hfit) as [shown ->].
  do 4 eexists. split; [reflexivity |].
  assert (Kw : 0 < cols frame / 2) by (apply Z.div_str_pos; lia).
  assert (Kh : 0 < rows frame / 2) by (apply Z.div_str_pos; lia).
  split; apply quotient_unit_range; try assumption; unfold centre_x, centre_y.
  - clear Kh Hw' Hh'. Z.div_mod_to_equations. lia.
  - clear Kw Hw' Hh'. Z.div_mod_to_equations. lia.
Qed.

Lemma offsets_within_unit_range_witness :
  exists shown qx qy msg_z,
    process_frame (detector [face_edge]) frame_640x480
      = Ok (shown, (PyFloat (Finite qx), PyFloat (Finite qy), msg_z)) /\
    (-1 <= qx <= 1)%Q /\ (-1 <= qy <= 1)%Q.
Proof.
  apply (offsets_within_unit_range (detector [face_edge]) frame_640x480
           face_edge).
  - reflexivity.
  - concrete_bounds.
  - concrete_bounds.
  - unfold inside_frame. concrete_bounds.
Defined.

(** A rectangle reaching past the right edge gets an offset above 1. *)
Example offset_beyond_edge :
  position_of (process_frame (detector [mkRect 600 190 200 100]) frame_640x480)
    = Ok (PyFloat (Finite (19 # 16)), PyFloat (Finite 0), PyInt 20000).
Proof. reflexivity. Qed.

(** X2.  In a frame of at least 2x2 pixels, for a face whose centre
    arithmetic stays within [int32], the sign of each offset tells on which
    side of the frame centre [(W//2, H//2)] the floored centre of the face
    lies: zero exactly on it, positive to the right (below), negative to the
    left (above). *)
Theorem offset_sign_is_side (detect : GrayFrame -> list Rect)
    (frame : Frame) (face : Rect) :
  py_max area (detect (gray_of frame)) = Ok face ->
  2 <= cols frame -> 2 <= rows frame ->
  centre_fits frame face ->
  exists shown qx qy msg_z,
    process_frame detect frame
      = Ok (shown, (PyFloat (Finite qx), PyFloat (Finite qy), msg_z)) /\
    ((qx == 0)%Q <-> centre_x face = cols frame / 2) /\
    ((0 < qx)%Q <-> cols frame / 2 < centre_x face) /\
    ((qx < 0)%Q <-> centre_x face < cols frame / 2) /\
    ((qy == 0)%Q <-> centre_y face = rows frame / 2) /\
    ((0 < qy)%Q <-> rows frame / 2 < centre_y face) /\
    ((qy < 0)%Q <-> centre_y face < rows frame / 2).
Proof.
  intros Hmax Hw Hh Hfit.
  destruct (process_frame_detected _ _ _ Hmax Hw Hh Hfit) as [shown ->].
  do 4 eexists. split; [reflexivity |].
  assert (Kw : 0 < cols frame / 2) by (apply Z.div_str_pos; lia).
  assert (Kh : 0 < rows frame / 2) by (apply Z.div_str_pos; lia).
  destruct (quotient_sign (centre_x face - cols frame / 2) _ Kw)
    as (Hx0 & Hxp & Hxn).
  destruct (quotient_sign (centre_y face - rows frame / 2) _ Kh)
    as (Hy0 & Hyp & Hyn).
  rewrite Hx0, Hxp, Hxn, Hy0, Hyp, Hyn.
  repeat split; intros H; lia.
Qed.

Lemma offset_sign_is_side_witness :
  exists shown qx qy msg_z,
    process_frame (detector [face_right]) frame_640x480
      = Ok (shown, (PyFloat (Finite qx), PyFloat (Finite qy), msg_z)) /\
    ((qx == 0)%Q <-> centre_x face_right = cols frame_640x480 / 2) /\
    ((0 < qx)%Q <-> cols frame_640x480 / 2 < centre_x face_right) /\
    ((qx < 0)%Q <-> centre_x face_right < cols frame_640x480 / 2) /\
    ((qy == 0)%Q <-> centre_y face_right = rows frame_640x480 / 2) /\
    ((0 < qy)%Q <-> rows frame_640x480 / 2 < centre_y face_right) /\
    ((qy < 0)%Q <-> centre_y face_right < rows frame_640x480 / 2).
Proof.
  apply (offset_sign_is_side (detector [face_right]) frame_640x480 face_right).
  - reflexivity.
  - simpl; lia.
  - simpl; lia.
  - concrete_bounds.
Defined.

(** ** What the per-frame computation cannot raise *)

(** X4.  For a frame that has pixels, lines 44-70 always complete, whatever
    the detector returns: [max] is only called under the guard
    [len(faces) > 0], so it never raises [ValueError], and the divisions
    raise nothing even for a zero divisor. *)
Theorem derivation_never_raises (detect : GrayFrame -> list Rect)
    (frame : Frame) :
  0 < rows frame -> 0 < cols frame ->
  (exists shown pos, process_frame detect frame = Ok (shown, pos)) /\
  forall gray, derive detect frame gray <> Raise ValueError.
Proof.
  intros Hr Hc. split.
  - rewrite process_frame_nonempty by (apply is_empty_false; lia).
    apply derive_ok.
  - intros gray H. destruct (derive_ok detect frame gray) as (s0 & p & E).
    congruence.
Qed.

Lemma derivation_never_raises_witness :
  (exists shown pos,
     process_frame (detector [face_small]) frame_1x480 = Ok (shown, pos)) /\
  forall gray,
    derive (detector [face_small]) frame_1x480 gray <> Raise ValueError.
Proof.
  apply (derivation_never_raises (detector [face_small]) frame_1x480);
    reflexivity.
Defined.

(** ** Selection and the order of enumeration *)

Lemma Rect_eq_dec (r1 r2 : Rect) : {r1 = r2} + {r1 <> r2}.
Proof. decide equality; apply Z.eq_dec. Qed.

(** X5.  When one detected rectangle has a strictly larger
    [width * height] than every other, and these products are within
    [int32], it is the one selected, in whatever order the detector
    enumerates the rectangles. *)
Theorem unique_largest_face_selected (faces faces' : list Rect)
    (face : Rect) :
  In face faces ->
  (forall r, In r faces -> in_int32 (rect_w r * rect_h r)) ->
  (forall r, In r faces -> r <> face ->
     rect_w r * rect_h r < rect_w face * rect_h face) ->
  Permutation faces faces' ->
  py_max area faces' = Ok face.
Proof.
  intros Hin Hbound Hlargest Hperm.
  assert (Hin' : In face faces') by (apply (Permutation_in _ Hperm), Hin).
  destruct (py_max_nonempty faces') as [m Hm].
  { intros E. rewrite E in Hin'. exact Hin'. }
  destruct (py_max_in _ _ Hm) as [Hmin Hupper].
  destruct (Rect_eq_dec m face) as [-> | Hne]; [exact Hm |].
  exfalso.
  assert (Hmin0 : In m faces)
    by (apply (Permutation_in _ (Permutation_sym Hperm)), Hmin).
  pose proof (Hlargest m Hmin0 Hne) as Hlt.
  specialize (Hupper face Hin').
  rewrite (area_exact _ (Hbound _ Hin)), (area_exact _ (Hbound _ Hmin0))
    in Hupper.
  lia.
Qed.

Lemma unique_largest_face_selected_witness :
  py_max area [face_centred; face_right; face_small] = Ok face_centred.
Proof.
  apply (unique_largest_face_selected [face_small; face_centred; face_right]).
  - right; left; reflexivity.
  - intros r [<- | [<- | [<- | []]]]; concrete_bounds.
  - intros r [<- | [<- | [<- | []]]] Hne; try (vm_compute; reflexivity).
    congruence.
  - apply perm_trans with [face_centred; face_small; face_right].
    + apply perm_swap.
    + apply perm_skip, perm_swap.
Defined.

(** X6.  The [width * height] of the selected face does not depend on the
    order of enumeration, as long as these products are within [int32],
    even when several rectangles share the maximal area (the face itself
    then does depend on the order). *)
Theorem selected_area_order_independent (faces faces' : list Rect) :
  faces <> [] ->
  (forall r, In r faces -> in_int32 (rect_w r * rect_h r)) ->
  Permutation faces faces' ->
  exists face face',
    py_max area faces = Ok face /\ py_max area faces' = Ok face' /\
    rect_w face * rect_h face = rect_w face' * rect_h face'.
Proof.
  intros Hne Hbound Hperm.
  destruct (py_max_nonempty _ Hne) as [face Hm].
  destruct (py_max_nonempty faces') as [face' Hm'].
  { intros E. rewrite E in Hperm. apply Permutation_sym in Hperm.
    apply Permutation_nil in Hperm. exact (Hne Hperm). }
  exists face, face'. split; [exact Hm | split; [exact Hm' |]].
  destruct (py_max_in _ _ Hm) as [Hin Hup].
  destruct (py_max_in _ _ Hm') as [Hin' Hup'].
  assert (Hin0 : In face' faces)
    by (apply (Permutation_in _ (Permutation_sym Hperm)), Hin').
  rewrite <- (area_exact _ (Hbound _ Hin)), <- (area_exact _ (Hbound _ Hin0)).
  apply Z.le_antisymm.
  - apply Hup'. apply (Permutation_in _ Hperm), Hin.
  - apply Hup. exact Hin0.
Qed.

Lemma selected_area_order_independent_witness :
  exists face face',
    py_max area three_faces = Ok face /\
    py_max area [face_tie; face_small; face_centred] = Ok face' /\
    rect_w face * rect_h face = rect_w face' * rect_h face'.
Proof.
  apply (selected_area_order_independent three_faces).
  - discriminate.
  - intros r [<- | [<- | [<- | []]]]; concrete_bounds.
  - unfold three_faces.
    apply perm_trans with [face_small; face_tie; face_centred].
    + apply perm_skip, perm_swap.
    + apply perm_swap.
Defined.

(** With a tie, the order of enumeration decides which face is drawn. *)
Example tie_follows_enumeration :
  py_max area three_faces = Ok face_centred /\
  py_max area [face_tie; face_small; face_centred] = Ok face_tie.
Proof. split; reflexivity. Qed.

(** Beyond [int32] the product wraps and a small face wins. *)
Example huge_face_loses :
  py_max area [mkRect 0 0 50000 50000; mkRect 0 0 10 10]
    = Ok (mkRect 0 0 10 10).
Proof. reflexivity. Qed.

(** ** The loop: its exits and what it shows *)

(** What ends a run lies in the environment. *)
Lemma run_cause (env : Env) (i : nat) (exit : LoopExit) (n : nat)
    (tr : list Event) :
  Run env i exit n tr ->
  match exit with
  | StreamEnded => read env n = None
  | SurfaceClosed =>
      exists k, n = S k /\ (getWindowProperty env k < 1)%Q
  | Raised e =>
      exists frame,
        read env n = Some frame /\
        process_frame (detectMultiScale env) frame = Raise e
  end.
Proof.
  induction 1 as
    [i Hread | i frame e Hread Hproc | i frame shown pos Hread Hproc Hvis
     | i frame shown pos exit n tr Hread Hproc Hvis Hrun IH].
  - exact Hread.
  - exists frame. split; assumption.
  - exists i. split; [reflexivity | exact Hvis].
  - exact IH.
Qed.

(** Every complete iteration read a frame, processed it and showed it. *)
Lemma run_complete (env : Env) (i : nat) (exit : LoopExit) (n : nat)
    (tr : list Event) :
  Run env i exit n tr ->
  forall j, (i <= j < n)%nat ->
    exists frame shown pos,
      read env j = Some frame /\
      process_frame (detectMultiScale env) frame = Ok (shown, pos) /\
      In (EvImshow ventana shown) tr.
Proof.
  induction 1 as
    [i Hread | i frame e Hread Hproc | i frame shown pos Hread Hproc Hvis
     | i frame shown pos exit n tr Hread Hproc Hvis Hrun IH];
    intros j Hj; try lia.
  - assert (j = i) by lia. subst j. exists frame, shown, pos.
    repeat split; try assumption. simpl. auto.
  - destruct (Nat.eq_dec j i) as [-> | Hne].
    + exists frame, shown, pos. repeat split; try assumption.
      apply in_or_app. left. simpl. auto.
    + destruct (IH j) as (f & sh & p & H1 & H2 & H3); [lia |].
      exists f, sh, p. repeat split; try assumption.
      apply in_or_app. right. exact H3.
Qed.

(** Everything shown is the processed frame of a complete iteration. *)
Lemma run_imshow (env : Env) (i : nat) (exit : LoopExit) (n : nat)
    (tr : list Event) :
  Run env i exit n tr ->
  forall winname shown, In (EvImshow winname shown) tr ->
    winname = ventana /\
    exists k frame pos,
      (i <= k < n)%nat /\ read env k = Some frame /\
      process_frame (detectMultiScale env) frame = Ok (shown, pos).
Proof.
  assert (Hpass : forall k frame sh winname shown,
    In (EvImshow winname shown) (pass_events env k frame sh) ->
    winname = ventana /\ shown = sh).
  { intros k frame sh winname shown Hin. simpl in Hin.
    destruct Hin as [E | [E | [E | [E | [E | []]]]]]; try discriminate.
    injection E as <- <-. split; reflexivity. }
  induction 1 as
    [i Hread | i frame e Hread Hproc | i frame shown pos Hread Hproc Hvis
     | i frame shown pos exit n tr Hread Hproc Hvis Hrun IH];
    intros winname sh Hin.
  - destruct Hin as [E | []]; discriminate.
  - unfold raise_events in Hin.
    destruct (is_empty frame); simpl in Hin;
      [destruct Hin as [E | []] | destruct Hin as [E | [E | []]]];
      discriminate.
  - destruct (Hpass _ _ _ _ _ Hin) as [-> ->]. split; [reflexivity |].
    exists i, frame, pos. repeat split; try assumption; lia.
  - apply in_app_or in Hin. destruct Hin as [Hin | Hin].
    + destruct (Hpass _ _ _ _ _ Hin) as [-> ->]. split; [reflexivity |].
      pose proof (run_le _ _ _ _ _ Hrun).
      exists i, frame, pos. repeat split; try assumption; lia.
    + destruct (IH _ _ Hin) as (-> & k & f & p & Hk & H1 & H2).
      split; [reflexivity |]. exists k, f, p. repeat split; try assumption; lia.
Qed.

Lemma main_loop_endless (env : Env) :
  (forall k, exists frame shown pos,
     read env k = Some frame /\
     process_frame (detectMultiScale env) frame = Ok (shown, pos) /\
     (1 <= getWindowProperty env k)%Q) ->
  forall fuel i, main_loop env fuel i = None.
Proof.
  intros Hgood. induction fuel as [| fuel IH]; intros i; [reflexivity |].
  destruct (Hgood i) as (frame & shown & pos & Hread & Hproc & Hvis).
  simpl. rewrite (loop_body_continue env i frame shown pos) by assumption.
  rewrite IH. reflexivity.
Qed.

(** X7.  The loop has no exit of its own: as long as every read delivers a
    frame, every frame is processed without an exception and the window is
    reported visible, it keeps running, and the script never reaches the
    release of the camera. *)
Theorem loop_without_cause_never_ends (env : Env) :
  (forall k, exists frame shown pos,
     read env k = Some frame /\
     process_frame (detectMultiScale env) frame = Ok (shown, pos) /\
     (1 <= getWindowProperty env k)%Q) ->
  forall fuel,
    main_loop env fuel 0 = None /\
    (isOpened env = true -> script env fuel = None).
Proof.
  intros Hgood fuel.
  pose proof (main_loop_endless env Hgood fuel 0%nat) as Hnone.
  split; [exact Hnone |].
  intros Hopen. unfold script. rewrite Hopen, Hnone. reflexivity.
Qed.

Lemma loop_without_cause_never_ends_witness :
  main_loop env_endless 50 0 = None /\ script env_endless 50 = None.
Proof.
  destruct (loop_without_cause_never_ends env_endless) with (fuel := 50%nat)
    as [Hloop Hscript].
  - intros k. exists frame_640x480, shown_right.
    eexists. split; [reflexivity | split; [reflexivity |]].
    destruct k as [| k]; simpl; unfold Qle; simpl; lia.
  - split; [exact Hloop | apply Hscript; reflexivity].
Defined.

(** X8.  Whenever the loop ends, the cause is in the environment: it ends
    as end of stream only at a read that returned no frame, as window closed
    only right after a check that answered below 1, and with an exception
    only at a frame whose processing raised it.  Every iteration before
    that read its frame, processed it without an exception and, unless it
    was the closing one, saw the window visible. *)
Theorem loop_exit_has_cause (env : Env) (fuel : nat) (exit : LoopExit)
    (n : nat) (tr : list Event) :
  main_loop env fuel 0 = Some (exit, n, tr) ->
  match exit with
  | StreamEnded => read env n = None
  | SurfaceClosed =>
      exists k, n = S k /\ (getWindowProperty env k < 1)%Q
  | Raised e =>
      exists frame,
        read env n = Some frame /\
        process_frame (detectMultiScale env) frame = Raise e
  end /\
  forall j, (j < n)%nat ->
    (exists frame shown pos,
       read env j = Some frame /\
       process_frame (detectMultiScale env) frame = Ok (shown, pos)) /\
    ((1 <= getWindowProperty env j)%Q \/
     (exit = SurfaceClosed /\ n = S j)).
Proof.
  intros Hloop. pose proof (main_loop_run _ _ _ _ _ _ Hloop) as Hrun.
  split; [exact (run_cause _ _ _ _ _ Hrun) |].
  intros j Hj. split.
  - destruct (run_complete _ _ _ _ _ Hrun j) as (f & sh & p & H1 & H2 & _);
      [lia |].
    exists f, sh, p. split; assumption.
  - apply (run_prefix _ _ _ _ _ Hrun j). lia.
Qed.

Lemma loop_exit_has_cause_witness :
  (exists k, 2%nat = S k /\ (getWindowProperty env_closed_second k < 1)%Q) /\
  forall j, (j < 2)%nat ->
    (exists frame shown pos,
       read env_closed_second j = Some frame /\
       process_frame (detectMultiScale env_closed_second) frame
         = Ok (shown, pos)) /\
    ((1 <= getWindowProperty env_closed_second j)%Q \/
     (SurfaceClosed = SurfaceClosed /\ 2%nat = S j)).
Proof.
  apply (loop_exit_has_cause env_closed_second 2 SurfaceClosed 2
           trace_closed_second).
  reflexivity.
Defined.

Lemma process_frame_keeps_grid (detect : GrayFrame -> list Rect)
    (frame shown : Frame) (pos : RelativePosition) :
  process_frame detect frame = Ok (shown, pos) ->
  pixels shown = pixels frame /\
  rows shown = rows frame /\ cols shown = cols frame.
Proof.
  intros Hok.
  pose proof (process_frame_ok_nonempty _ _ _ _ Hok) as Hne.
  destruct (detect (gray_of frame)) as [| a l] eqn:E.
  - rewrite (process_frame_empty _ _ Hne E) in Hok.
    assert (shown = frame) by congruence. subst shown. repeat split.
  - destruct (py_max_nonempty (a :: l)) as [face Hmax]; [discriminate |].
    rewrite <- E in Hmax. rewrite (process_frame_face _ _ _ Hne Hmax) in Hok.
    unfold annotate, relative_position in Hok. cbv zeta iota beta in Hok.
    assert (Hs : shown = fst (shown, pos)) by reflexivity.
    rewrite Hs. injection Hok as <- _. repeat split.
Qed.

(** X9.  An exception raised while a frame is processed leaves the loop and
    the script at once: that frame is not shown, and neither the release of
    the camera nor the closing of the windows is executed. *)
Theorem exception_skips_release (env : Env) (fuel : nat) (e : Exception)
    (n : nat) (tr : list Event) :
  isOpened env = true ->
  main_loop env fuel 0 = Some (Raised e, n, tr) ->
  exists t,
    script env fuel = Some (Uncaught e, t) /\
    t = [EvVideoCapture 0; EvIsOpened true] ++ tr /\
    count is_release t = 0%nat /\ count is_destroy t = 0%nat /\
    count is_read t = S n /\ count is_imshow t = n.
Proof.
  intros Hopen Hloop.
  pose proof (main_loop_run _ _ _ _ _ _ Hloop) as Hrun.
  destruct (run_counts _ _ _ _ _ Hrun) as (Hr & _ & Hs & Hall).
  eexists. split; [| split; [reflexivity |]].
  - unfold script. rewrite Hopen, Hloop. reflexivity.
  - rewrite !count_app.
    rewrite (count_none is_release tr Hall),
            (count_none is_destroy tr Hall);
      try (intros [] H; try discriminate; reflexivity).
    repeat split; simpl; lia.
Qed.

Lemma exception_skips_release_witness :
  exists t,
    script env_empty_frame 1 = Some (Uncaught Cv2Error, t) /\
    t = [EvVideoCapture 0; EvIsOpened true] ++ [EvRead 0 (Some frame_0x0)] /\
    count is_release t = 0%nat /\ count is_destroy t = 0%nat /\
    count is_read t = 1%nat /\ count is_imshow t = 0%nat.
Proof.
  apply (exception_skips_release env_empty_frame 1 Cv2Error 0);
    reflexivity.
Defined.

(** X10.  In every run of the loop the number of frames shown is the number
    of complete iterations, every frame is shown in the window titled
    [Face detection], and what is shown is always the processed version of a
    frame read in that run, with the pixels and dimensions of that frame. *)
Theorem shown_frames_are_processed_reads (env : Env) (fuel : nat)
    (exit : LoopExit) (n : nat) (tr : list Event) :
  main_loop env fuel 0 = Some (exit, n, tr) ->
  count is_imshow tr = n /\
  forall winname shown, In (EvImshow winname shown) tr ->
    winname = "Face detection"%string /\
    exists k frame pos,
      (k < n)%nat /\ read env k = Some frame /\
      process_frame (detectMultiScale env) frame = Ok (shown, pos) /\
      pixels shown = pixels frame /\
      rows shown = rows frame /\ cols shown = cols frame.
Proof.
  intros Hloop. pose proof (main_loop_run _ _ _ _ _ _ Hloop) as Hrun.
  destruct (run_counts _ _ _ _ _ Hrun) as (_ & _ & Hs & _).
  split; [lia |].
  intros winname shown Hin.
  destruct (run_imshow _ _ _ _ _ Hrun _ _ Hin)
    as (-> & k & frame & pos & Hk & Hread & Hproc).
  split; [reflexivity |]. exists k, frame, pos.
  destruct (process_frame_keeps_grid _ _ _ _ Hproc) as (H1 & H2 & H3).
  repeat split; try assumption. lia.
Qed.

Lemma shown_frames_are_processed_reads_witness :
  count is_imshow trace_two_frames = 2%nat /\
  forall winname shown, In (EvImshow winname shown) trace_two_frames ->
    winname = "Face detection"%string /\
    exists k frame pos,
      (k < 2)%nat /\ read env_two_frames k = Some frame /\
      process_frame (detectMultiScale env_two_frames) frame
        = Ok (shown, pos) /\
      pixels shown = pixels frame /\
      rows shown = rows frame /\ cols shown = cols frame.
Proof.
  apply (shown_frames_are_processed_reads env_two_frames 3 StreamEnded 2
           trace_two_frames).
  reflexivity.
Defined.
